(** * Verification of tensorflow/core/example/feature_util.h

    A shallow embedding of the accessor layer over Feature protos:
    the type trait resolver ([FeatureTrait], [RepeatedFieldTrait]), the
    Features / Example / SequenceExample accessors ([GetFeature],
    [GetFeatureList], [HasFeature]), the typed value views
    ([GetFeatureValues]) and the bulk copiers ([AppendFeatureValues],
    [SetFeatureValues], [ClearFeatureValues]).

    The header defines the templates that compose these operations.  The
    bodies of the specialisations it only declares (they live in
    feature_util.cc) and the proto messages (feature.proto, example.proto)
    are not part of the sources; each such definition below says so in its
    doc comment. *)

From Stdlib Require Import ZArith.
From Stdlib Require Import Floats.SpecFloat.
From stdpp Require Import gmap strings list fin_maps.

Local Open Scope Z_scope.

(** ** Type trait resolver (namespace [internal]) *)

Module internal.

(** The C++ types the traits are instantiated with.  A value type is a
    fundamental arithmetic type, one of the three string classes, or built
    from these with [const], pointers, references and arrays. *)
Inductive IntegralType :=
| cpp_bool | cpp_char | cpp_signed_char | cpp_unsigned_char
| cpp_wchar_t | cpp_char16_t | cpp_char32_t
| cpp_short | cpp_unsigned_short | cpp_int | cpp_unsigned_int
| cpp_long | cpp_unsigned_long | cpp_long_long | cpp_unsigned_long_long.

Inductive FloatingType := cpp_float | cpp_double | cpp_long_double.

Inductive CppType :=
| Integral (t : IntegralType)
| Floating (t : FloatingType)
| cpp_void
| cpp_std_string          (* std::string *)
| cpp_StringPiece         (* ::tensorflow::StringPiece = absl::string_view *)
| cpp_tstring             (* tensorflow::tstring *)
| Const (T : CppType)
| Pointer (T : CppType)
| Reference (T : CppType)
| Array (T : CppType) (n : nat).

#[global] Instance IntegralType_eq_dec : EqDecision IntegralType.
Proof. solve_decision. Defined.
#[global] Instance FloatingType_eq_dec : EqDecision FloatingType.
Proof. solve_decision. Defined.
#[global] Instance CppType_eq_dec : EqDecision CppType.
Proof. solve_decision. Defined.

(** <type_traits>: [std::is_same], [std::remove_reference],
    [std::remove_cv], [std::decay], [std::is_integral],
    [std::is_floating_point]. *)
Definition is_same (T U : CppType) : bool := bool_decide (T = U).

Definition remove_reference (T : CppType) : CppType :=
  match T with Reference U => U | _ => T end.

Fixpoint remove_cv (T : CppType) : CppType :=
  match T with Const U => remove_cv U | _ => T end.

(** The element type of an array type.  A [const] on an array type
    qualifies its elements: [Const (Array E n)] is the type
    [Array (Const E) n]. *)
Fixpoint array_element (T : CppType) : option CppType :=
  match T with
  | Array E _ => Some E
  | Const U =>
      match array_element U with
      | Some (Const E) => Some (Const E)
      | Some E => Some (Const E)
      | None => None
      end
  | _ => None
  end.

Definition decay (T : CppType) : CppType :=
  match array_element (remove_reference T) with
  | Some E => Pointer E
  | None => remove_cv (remove_reference T)
  end.

Definition is_integral (T : CppType) : bool :=
  match remove_cv T with Integral _ => true | _ => false end.

Definition is_floating_point (T : CppType) : bool :=
  match remove_cv T with Floating _ => true | _ => false end.

(** The feature types: the template arguments [GetFeatureValues],
    [ClearFeatureValues] and [HasFeature] are specialised for. *)
Inductive FeatureType := protobuf_int64 | float | tstring | std_string.

#[global] Instance FeatureType_eq_dec : EqDecision FeatureType.
Proof. solve_decision. Defined.

(** [RepeatedFieldTrait<FeatureType>::Type]: the repeated field holding the
    values of a feature type. *)
Inductive RepeatedType :=
| RepeatedField_int64     (* protobuf::RepeatedField<protobuf_int64> *)
| RepeatedField_float     (* protobuf::RepeatedField<float> *)
| RepeatedPtrField_string (* protobuf::RepeatedPtrField<std::string> *).

Definition RepeatedFieldTrait (FT : FeatureType) : RepeatedType :=
  match FT with
  | protobuf_int64 => RepeatedField_int64
  | float => RepeatedField_float
  | tstring => RepeatedPtrField_string
  | std_string => RepeatedPtrField_string
  end.

(** [is_string<T>]: the primary template compares the decayed type with
    [char*] and [const char*]; three explicit specialisations add
    [std::string], [StringPiece] and [tstring]. *)
Definition is_string (T : CppType) : bool :=
  match T with
  | cpp_std_string => true
  | cpp_StringPiece => true
  | cpp_tstring => true
  | _ => is_same (Pointer (Integral cpp_char)) (decay T)
         || is_same (Pointer (Const (Integral cpp_char))) (decay T)
  end.

(** [FeatureTrait<ValueType>::Type].  The three partial specialisations are
    guarded by [enable_if]; the trait is defined when exactly one guard
    holds.  [None] stands for a value type with no (or no unique)
    specialisation, for which the templates do not instantiate. *)
Definition FeatureTrait (ValueType : CppType) : option FeatureType :=
  match is_integral ValueType, is_floating_point ValueType,
        is_string ValueType with
  | true, false, false => Some protobuf_int64
  | false, true, false => Some float
  | false, false, true => Some std_string
  | _, _, _ => None
  end.

End internal.

Import internal.

(** ** Storage kinds *)

(** The discriminant of the oneof [kind] of a Feature. *)
Inductive KindCase := KIND_NOT_SET | kBytesList | kFloatList | kInt64List.

#[global] Instance KindCase_eq_dec : EqDecision KindCase.
Proof. solve_decision. Defined.

(** The oneof member a repeated field type belongs to, and through
    [RepeatedFieldTrait] the storage kind of a feature type. *)
Definition kind_of_repeated (R : RepeatedType) : KindCase :=
  match R with
  | RepeatedField_int64 => kInt64List
  | RepeatedField_float => kFloatList
  | RepeatedPtrField_string => kBytesList
  end.

Definition kind_of (FT : FeatureType) : KindCase :=
  kind_of_repeated (RepeatedFieldTrait FT).

(** The storage kind the resolver picks for a value type. *)
Definition storage_kind (ValueType : CppType) : option KindCase :=
  kind_of <$> FeatureTrait ValueType.

(** ** Values *)

(** The element type of the repeated field of a feature type: 64-bit
    signed integers, single-precision floats (as IEEE-754 data, 24 bits of
    precision and maximal exponent 128), and byte strings. *)
Definition elem (FT : FeatureType) : Type :=
  match FT with
  | protobuf_int64 => Z
  | float => spec_float
  | tstring => string
  | std_string => string
  end.

(** The value types callers pass: the types [FeatureTrait] is defined
    for.  [cpp_type] gives the C++ type of each. *)
Inductive StringType :=
| owned_string        (* std::string *)
| string_view         (* absl::string_view *)
| owned_tstring       (* tstring *)
| c_string            (* char* *)
| const_c_string      (* const char* *).

Inductive ValueType :=
| IntegralValue (t : IntegralType)
| FloatingValue (t : FloatingType)
| StringValue (t : StringType).

Definition cpp_type (V : ValueType) : CppType :=
  match V with
  | IntegralValue t => Integral t
  | FloatingValue t => Floating t
  | StringValue owned_string => cpp_std_string
  | StringValue string_view => cpp_StringPiece
  | StringValue owned_tstring => cpp_tstring
  | StringValue c_string => Pointer (Integral cpp_char)
  | StringValue const_c_string => Pointer (Const (Integral cpp_char))
  end.

(** [using FeatureType = typename internal::FeatureTrait<...>::Type], as
    every copier resolves it from the element type of its source
    ([FeatureTrait_Type_resolved] below relates it to [FeatureTrait]). *)
Definition FeatureTrait_Type (V : ValueType) : FeatureType :=
  match V with
  | IntegralValue _ => protobuf_int64
  | FloatingValue _ => float
  | StringValue _ => std_string
  end.

(** A value of a value type, by what it denotes: an integer, a
    floating-point datum, the bytes of a string (for a C string, the bytes
    before the terminator). *)
Definition cvalue (V : ValueType) : Type := elem (FeatureTrait_Type V).

(** Conversion to a 64-bit signed integer wraps around modulo 2^64. *)
Definition wrap_int64 (z : Z) : Z := (z + 2 ^ 63) mod 2 ^ 64 - 2 ^ 63.

(** Conversion to [float] rounds to the nearest single-precision value. *)
Definition to_float (x : spec_float) : spec_float :=
  match x with
  | S754_finite s m e => binary_round 24 128 s m e
  | _ => x
  end.

(** The implicit conversion applied to each element when it is stored:
    [*values->Add() = elt], or [Add(value)] through the back inserter. *)
Definition convert (V : ValueType) : cvalue V -> elem (FeatureTrait_Type V) :=
  match V with
  | IntegralValue _ => wrap_int64
  | FloatingValue cpp_float => fun x => x
  | FloatingValue _ => to_float
  | StringValue _ => fun s => s
  end.

(** A value the storage type holds as it is. *)
Definition representable (V : ValueType) (v : cvalue V) : Prop :=
  convert V v = v.

(** ** Features *)

(** Modelled from the spec: the Feature message (generated from
    feature.proto, which is not part of the sources).  A Feature has a
    discriminant and the three kind-specific repeated lists; a freshly
    created Feature has no kind set and holds nothing.  The record is
    wider than the oneof: [oneof_invariant] below singles out the states
    in which at most the list named by the discriminant holds values. *)
Record Feature := mkFeature {
  kind_case : KindCase;
  bytes_list : list string;
  float_list : list spec_float;
  int64_list : list Z
}.

Definition Feature_default : Feature := mkFeature KIND_NOT_SET [] [] [].

(** The storage of a feature type inside a Feature. *)
Definition storage (FT : FeatureType) (f : Feature) : list (elem FT) :=
  match FT with
  | protobuf_int64 => int64_list f
  | float => float_list f
  | tstring => bytes_list f
  | std_string => bytes_list f
  end.

Definition set_storage (FT : FeatureType) :
    list (elem FT) -> Feature -> Feature :=
  match FT with
  | protobuf_int64 => fun l f =>
      mkFeature (kind_case f) (bytes_list f) (float_list f) l
  | float => fun l f =>
      mkFeature (kind_case f) (bytes_list f) l (int64_list f)
  | tstring => fun l f =>
      mkFeature (kind_case f) l (float_list f) (int64_list f)
  | std_string => fun l f =>
      mkFeature (kind_case f) l (float_list f) (int64_list f)
  end.

(** The oneof invariant: a list that holds values is the one the
    discriminant names. *)
Definition agrees (f : Feature) : Prop :=
  (bytes_list f <> [] -> kind_case f = kBytesList) /\
  (float_list f <> [] -> kind_case f = kFloatList) /\
  (int64_list f <> [] -> kind_case f = kInt64List).

Definition exclusive (f : Feature) : Prop :=
  ~ (bytes_list f <> [] /\ float_list f <> []) /\
  ~ (bytes_list f <> [] /\ int64_list f <> []) /\
  ~ (float_list f <> [] /\ int64_list f <> []).

Definition oneof_invariant (f : Feature) : Prop := agrees f /\ exclusive f.

(** ** Errors *)

Inductive ErrorClass :=
| LookupError         (* std::out_of_range from Map::at *)
| ForeignKindAccess.

(** ** Repeated fields *)

(** protobuf's RepeatedField / RepeatedPtrField, by their contents.
    [Reserve] changes the capacity only. *)
Module RepeatedField.
Definition Reserve {A} (new_size : nat) (values : list A) : list A := values.
Definition Add {A} (value : A) (values : list A) : list A := values ++ [value].
Definition Clear {A} (values : list A) : list A := [].
End RepeatedField.

(** ** Typed value views *)

(** Modelled from the spec: [GetFeatureValues<FeatureType>] on a const Feature,
    declared in the header and defined in feature_util.cc.  It returns the
    storage matching the feature type; on a Feature whose discriminant is a
    different kind the access is a ForeignKindAccess.  A Feature with no
    kind set holds no other kind, and the view is its empty storage.  It
    never changes the Feature. *)
Definition GetFeatureValues_const (FT : FeatureType) (feature : Feature) :
    result (list (elem FT)) ErrorClass :=
  if decide (kind_case feature = kind_of FT) then Ok (storage FT feature)
  else if decide (kind_case feature = KIND_NOT_SET) then Ok (storage FT feature)
  else Error ForeignKindAccess.

(** Modelled from the spec: [GetFeatureValues<FeatureType>] on a mutable Feature,
    declared in the header and defined in feature_util.cc.  If the
    discriminant is unset or differs from the kind, it switches to the kind
    and replaces the payload with an empty storage of that kind.  The
    returned pointer designates [storage FT] of the resulting Feature. *)
Definition GetFeatureValues_mut (FT : FeatureType) (feature : Feature) :
    Feature :=
  if decide (kind_case feature = kind_of FT) then feature
  else mkFeature (kind_of FT) [] [] [].

(** A step through the pointer returned by the mutable view. *)
Definition on_values (FT : FeatureType)
    (op : list (elem FT) -> list (elem FT)) (feature : Feature) : Feature :=
  set_storage FT (op (storage FT feature)) feature.

(** Modelled from the spec: [ClearFeatureValues<FeatureType>],
    declared in the header and defined in feature_util.cc.  It empties the
    storage of the feature type and nothing else. *)
Definition ClearFeatureValues (FT : FeatureType) (feature : Feature) :
    Feature :=
  on_values FT RepeatedField.Clear feature.

(** ** Bulk copiers on a Feature *)

(** [std::copy] / [std::move] into a [RepeatedFieldBackInserter], and the
    loop [for (elt : container) *values->Add() = elt]: one [Add] per
    element, in order, each converted to the element type. *)
Definition copy_into (V : ValueType) (elts : list (cvalue V))
    (feature : Feature) : Feature :=
  fold_left
    (fun feat elt =>
       on_values (FeatureTrait_Type V) (RepeatedField.Add (convert V elt)) feat)
    elts feature.

(** [AppendFeatureValues(first, last, feature)]. *)
Definition AppendFeatureValues_range (V : ValueType)
    (range : list (cvalue V)) (feature : Feature) : Feature :=
  let FT := FeatureTrait_Type V in
  let feature := GetFeatureValues_mut FT feature in
  copy_into V range feature.

(** [AppendFeatureValues(std::initializer_list<ValueType>, feature)]. *)
Definition AppendFeatureValues_init (V : ValueType)
    (container : list (cvalue V)) (feature : Feature) : Feature :=
  let FT := FeatureTrait_Type V in
  let feature := GetFeatureValues_mut FT feature in
  let feature :=
    on_values FT (RepeatedField.Reserve (length container)) feature in
  copy_into V container feature.

(** [internal::ReserveIfSizeAvailable]: reserves when the container has a
    [size()] member. *)
Definition ReserveIfSizeAvailable {A B} (has_size : bool)
    (container : list A) (values : list B) : list B :=
  if has_size then RepeatedField.Reserve (length container) values
  else values.

(** [AppendFeatureValues(const ContainerType&, feature)]. *)
Definition AppendFeatureValues (V : ValueType) (has_size : bool)
    (container : list (cvalue V)) (feature : Feature) : Feature :=
  let FT := FeatureTrait_Type V in
  let feature := GetFeatureValues_mut FT feature in
  let feature :=
    on_values FT (ReserveIfSizeAvailable has_size container) feature in
  copy_into V container feature.

(** [SetFeatureValues(first, last, feature)]. *)
Definition SetFeatureValues_range (V : ValueType)
    (range : list (cvalue V)) (feature : Feature) : Feature :=
  let FT := FeatureTrait_Type V in
  let feature := ClearFeatureValues FT feature in
  AppendFeatureValues_range V range feature.

(** [SetFeatureValues(std::initializer_list<ValueType>, feature)]. *)
Definition SetFeatureValues_init (V : ValueType)
    (container : list (cvalue V)) (feature : Feature) : Feature :=
  let FT := FeatureTrait_Type V in
  let feature := ClearFeatureValues FT feature in
  AppendFeatureValues_init V container feature.

(** [SetFeatureValues(const ContainerType&, feature)]. *)
Definition SetFeatureValues (V : ValueType) (has_size : bool)
    (container : list (cvalue V)) (feature : Feature) : Feature :=
  let FT := FeatureTrait_Type V in
  let feature := ClearFeatureValues FT feature in
  AppendFeatureValues V has_size container feature.

(** ** Records *)

(** protobuf's Map, as used by the header: [at] fails on a missing key,
    [operator[]] inserts a default value first when the key is missing, and
    the reference that either of them returns designates the entry of the
    key. *)
Module Map.
Definition at_ {V} (key : string) (m : gmap string V) : result V ErrorClass :=
  match m !! key with
  | Some v => Ok v
  | None => Error LookupError
  end.

Definition index {V} (default_value : V) (key : string) (m : gmap string V) :
    gmap string V :=
  match m !! key with
  | Some _ => m
  | None => <[key := default_value]> m
  end.

Definition contains {V} (key : string) (m : gmap string V) : bool :=
  bool_decide (is_Some (m !! key)).
End Map.

(** Modelled from the spec: the messages Features, Example and
    SequenceExample (generated from feature.proto and example.proto, which
    are not part of the sources).  A Features maps keys to Feature
    messages; an Example wraps one Features; a SequenceExample has a
    context and maps keys to ordered lists of Feature messages. *)
Record Features := mkFeatures { feature : gmap string Feature }.

Record Example := mkExample { features : Features }.

Record SequenceExample := mkSequenceExample {
  context : Features;
  feature_lists : gmap string (list Feature)
}.

(** [TypeHasFeatures<T>] with the family [GetFeatures]: the proto types
    that hold a Features.  [GetFeatures] reads it; [with_features] is a
    write through the pointer the mutable overload returns. *)
Class TypeHasFeatures (ProtoType : Type) := {
  GetFeatures : ProtoType -> Features;
  with_features : (Features -> Features) -> ProtoType -> ProtoType;
  GetFeatures_with_features : forall g proto,
    GetFeatures (with_features g proto) = g (GetFeatures proto)
}.

(** Modelled from the spec: the two specialisations of [GetFeatures],
    declared in the header and defined in feature_util.cc.  They return
    the map of a bare Features and the one an Example wraps. *)
#[global, refine] Instance TypeHasFeatures_Features : TypeHasFeatures Features :=
  {| GetFeatures := fun proto => proto;
     with_features := fun g proto => g proto |}.
Proof. reflexivity. Defined.

#[global, refine] Instance TypeHasFeatures_Example : TypeHasFeatures Example :=
  {| GetFeatures := features;
     with_features := fun g proto => mkExample (g (features proto)) |}.
Proof. reflexivity. Defined.

(** A write through a pointer to the Feature stored under a key. *)
Definition on_feature (key : string) (op : Feature -> Feature)
    (fs : Features) : Features :=
  mkFeatures (alter op key (feature fs)).

Section Accessors.
Context {ProtoType : Type} `{TypeHasFeatures ProtoType}.

(** [GetFeature(key, const ProtoType&)]:
    [GetFeatures(proto).feature().at(std::string(key))]. *)
Definition GetFeature_const (key : string) (proto : ProtoType) :
    result Feature ErrorClass :=
  Map.at_ key (feature (GetFeatures proto)).

(** [GetFeature(key, ProtoType* )], the same for its three key types:
    the address of [operator[]] applied to the mutable map of
    [GetFeatures(proto)].  The result is the
    proto after the call; the returned pointer designates the entry of
    [key]. *)
Definition GetFeature_mut (key : string) (proto : ProtoType) : ProtoType :=
  with_features
    (fun fs => mkFeatures (Map.index Feature_default key (feature fs))) proto.

(** [GetFeatureValues<FeatureType>(key, const ProtoType&)]. *)
Definition GetFeatureValues_key_const (FT : FeatureType) (key : string)
    (proto : ProtoType) : result (list (elem FT)) ErrorClass :=
  match Map.at_ key (feature (GetFeatures proto)) with
  | Ok f => GetFeatureValues_const FT f
  | Error e => Error e
  end.

(** [GetFeatureValues<FeatureType>(key, ProtoType* )]. *)
Definition GetFeatureValues_key_mut (FT : FeatureType) (key : string)
    (proto : ProtoType) : ProtoType :=
  with_features
    (fun fs =>
       let fs := mkFeatures (Map.index Feature_default key (feature fs)) in
       on_feature key (GetFeatureValues_mut FT) fs)
    proto.

End Accessors.

Section KeyedCopiers.
Context {ProtoType : Type} `{TypeHasFeatures ProtoType}.

(** A copier applied to [GetFeature(key, GetFeatures(proto))]: the Feature
    is looked up, or created, in the Features of the proto. *)
Definition at_key (key : string) (op : Feature -> Feature)
    (proto : ProtoType) : ProtoType :=
  with_features
    (fun fs => on_feature key op (GetFeature_mut key fs)) proto.

(** [AppendFeatureValues(first, last, key, proto)]. *)
Definition AppendFeatureValues_range_key (V : ValueType)
    (range : list (cvalue V)) (key : string) (proto : ProtoType) :=
  at_key key (AppendFeatureValues_range V range) proto.

(** [AppendFeatureValues(container, key, proto)]. *)
Definition AppendFeatureValues_key (V : ValueType) (has_size : bool)
    (container : list (cvalue V)) (key : string) (proto : ProtoType) :=
  at_key key (AppendFeatureValues V has_size container) proto.

(** [AppendFeatureValues(std::initializer_list, key, proto)]. *)
Definition AppendFeatureValues_init_key (V : ValueType)
    (container : list (cvalue V)) (key : string) (proto : ProtoType) :=
  at_key key (AppendFeatureValues_init V container) proto.

(** [SetFeatureValues(first, last, key, proto)]. *)
Definition SetFeatureValues_range_key (V : ValueType)
    (range : list (cvalue V)) (key : string) (proto : ProtoType) :=
  at_key key (SetFeatureValues_range V range) proto.

(** [SetFeatureValues(container, key, proto)]. *)
Definition SetFeatureValues_key (V : ValueType) (has_size : bool)
    (container : list (cvalue V)) (key : string) (proto : ProtoType) :=
  at_key key (SetFeatureValues V has_size container) proto.

(** [SetFeatureValues(std::initializer_list, key, proto)]. *)
Definition SetFeatureValues_init_key (V : ValueType)
    (container : list (cvalue V)) (key : string) (proto : ProtoType) :=
  at_key key (SetFeatureValues_init V container) proto.

End KeyedCopiers.

(** ** Existence predicates *)

(** Modelled from the spec: [HasFeature<FeatureType...>(key, Features)],
    declared in the header and defined in feature_util.cc.  The parameter
    pack holds no feature type (membership only) or one (membership and a
    matching discriminant). *)
Definition HasFeature (FT : option FeatureType) (key : string)
    (features : Features) : bool :=
  match feature features !! key with
  | None => false
  | Some f =>
      match FT with
      | None => true
      | Some FT => bool_decide (kind_case f = kind_of FT)
      end
  end.

(** [HasFeature<FeatureType...>(key, const Example&)]. *)
Definition HasFeature_Example (FT : option FeatureType) (key : string)
    (example : Example) : bool :=
  HasFeature FT key (GetFeatures example).

(** [ExampleHasFeature] (deprecated). *)
Definition ExampleHasFeature (FT : option FeatureType) (key : string)
    (example : Example) : bool :=
  HasFeature_Example FT key example.

(** ** Feature lists *)

(** Modelled from the spec: [HasFeatureList] and the two overloads of
    [GetFeatureList], declared in the header and defined in
    feature_util.cc.  The const overload fails on a missing key; the
    mutable one creates an empty list first, and its pointer designates
    the list of the key. *)
Definition HasFeatureList (key : string) (se : SequenceExample) : bool :=
  Map.contains key (feature_lists se).

Definition GetFeatureList_const (key : string) (se : SequenceExample) :
    result (list Feature) ErrorClass :=
  Map.at_ key (feature_lists se).

Definition GetFeatureList_mut (key : string) (se : SequenceExample) :
    SequenceExample :=
  mkSequenceExample (context se) (Map.index [] key (feature_lists se)).

(** A write through the pointer to the list of a key. *)
Definition on_feature_list (key : string)
    (op : list Feature -> list Feature) (se : SequenceExample) :
    SequenceExample :=
  mkSequenceExample (context se) (alter op key (feature_lists se)).

(** [RepeatedPtrField<Feature>::Add()]: a new default Feature at the end;
    the pointer it returns designates the last element. *)
Definition Add_feature (features : list Feature) : list Feature :=
  RepeatedField.Add Feature_default features.

Definition on_last (op : Feature -> Feature) (features : list Feature) :
    list Feature :=
  alter op (pred (length features)) features.

(** [copier(..., GetFeatureList(key, &se)->Add())]: a copier applied to a
    Feature newly added to the list of [key]. *)
Definition at_new_feature (key : string) (op : Feature -> Feature)
    (se : SequenceExample) : SequenceExample :=
  let se := GetFeatureList_mut key se in
  let se := on_feature_list key Add_feature se in
  on_feature_list key (on_last op) se.

(** ** Invariants and scenarios *)

(** Every Feature of a Features satisfies the invariant. *)
Definition Features_invariant (fs : Features) : Prop :=
  map_Forall (fun _ f => oneof_invariant f) (feature fs).

(** Every Feature of every feature list satisfies the invariant. *)
Definition FeatureLists_invariant (se : SequenceExample) : Prop :=
  map_Forall (fun _ l => Forall oneof_invariant l) (feature_lists se).

(** A sequence of copier calls, each on a Feature newly added to the list
    of the key, in call order. *)
Definition at_new_features (key : string) (ops : list (Feature -> Feature))
    (se : SequenceExample) : SequenceExample :=
  fold_left (fun se op => at_new_feature key op se) ops se.

(** The range of a 64-bit signed integer, and the Features whose stored
    integers are all in it. *)
Definition int64_range (z : Z) : Prop := - 2 ^ 63 <= z < 2 ^ 63.

Definition int64_values (f : Feature) : Prop :=
  Forall int64_range (int64_list f).

(** The number a finite floating-point datum denotes, in units of
    [2 ^ unit]. *)
Definition value_in (unit : Z) (x : spec_float) : option Z :=
  match x with
  | S754_zero _ => Some 0
  | S754_finite s m e =>
      if unit <=? e then
        Some ((if s then - Z.pos m else Z.pos m) * 2 ^ (e - unit))
      else None
  | _ => None
  end.

(** The double nearest to one tenth, and the float it rounds to. *)
Definition one_tenth_double : spec_float :=
  S754_finite false 7205759403792794 (-56).

Definition one_tenth_float : spec_float :=
  S754_finite false 13421773 (-27).

(** The doubles 4.0, 5.0 and 3.0, and the same values as floats. *)
Definition four_double : spec_float := S754_finite false 4503599627370496 (-50).
Definition five_double : spec_float := S754_finite false 5629499534213120 (-50).
Definition three_double : spec_float := S754_finite false 6755399441055744 (-51).
Definition four_float : spec_float := S754_finite false 8388608 (-21).
Definition five_float : spec_float := S754_finite false 10485760 (-21).
Definition three_float : spec_float := S754_finite false 12582912 (-22).

(** * Properties *)

(** ** The type trait resolver *)

Lemma array_element_arithmetic (T U : CppType) :
  remove_cv T = U ->
  (exists t, U = Integral t) \/ (exists t, U = Floating t) ->
  array_element T = None.
Proof.
  intros Hcv HU.
  induction T as [| | | | | | T IH | | |]; simpl in *; try reflexivity.
  - rewrite (IH Hcv). reflexivity.
  - subst U. destruct HU as [[t Ht] | [t Ht]]; discriminate.
Qed.

Lemma decay_of_arithmetic (T U : CppType) :
  remove_cv T = U ->
  (exists t, U = Integral t) \/ (exists t, U = Floating t) ->
  decay T = U.
Proof.
  intros Hcv HU.
  assert (Href : remove_reference T = T).
  { destruct T; try reflexivity.
    simpl in Hcv. subst U. destruct HU as [[t Ht] | [t Ht]]; discriminate. }
  unfold decay. rewrite Href, (array_element_arithmetic T U Hcv HU).
  exact Hcv.
Qed.

Lemma is_integral_spec (T : CppType) :
  is_integral T = true <-> exists t, remove_cv T = Integral t.
Proof.
  unfold is_integral. destruct (remove_cv T); split; intros Hi;
    try discriminate; eauto; destruct Hi as [? ?]; discriminate.
Qed.

Lemma is_floating_point_spec (T : CppType) :
  is_floating_point T = true <-> exists t, remove_cv T = Floating t.
Proof.
  unfold is_floating_point. destruct (remove_cv T); split; intros Hi;
    try discriminate; eauto; destruct Hi as [? ?]; discriminate.
Qed.

Lemma arithmetic_not_string (T U : CppType) :
  remove_cv T = U ->
  (exists t, U = Integral t) \/ (exists t, U = Floating t) ->
  is_string T = false.
Proof.
  intros Hcv HU.
  pose proof (decay_of_arithmetic T U Hcv HU) as Hd.
  assert (Hs : is_same (Pointer (Integral cpp_char)) (decay T)
               || is_same (Pointer (Const (Integral cpp_char))) (decay T)
               = false).
  { rewrite Hd. unfold is_same.
    destruct HU as [[t ->] | [t ->]];
      rewrite !bool_decide_eq_false_2 by discriminate; reflexivity. }
  destruct T; simpl in *; try exact Hs;
    subst U; destruct HU as [[t Ht] | [t Ht]]; discriminate.
Qed.

Lemma integral_not_floating (T : CppType) :
  is_integral T = true -> is_floating_point T = false.
Proof.
  rewrite is_integral_spec. intros [t Ht].
  unfold is_floating_point. rewrite Ht. reflexivity.
Qed.

Lemma integral_not_string (T : CppType) :
  is_integral T = true -> is_string T = false.
Proof.
  rewrite is_integral_spec. intros [t Ht].
  apply (arithmetic_not_string T (Integral t)); eauto.
Qed.

Lemma floating_not_string (T : CppType) :
  is_floating_point T = true -> is_string T = false.
Proof.
  rewrite is_floating_point_spec. intros [t Ht].
  apply (arithmetic_not_string T (Floating t)); eauto.
Qed.

(** The feature type every copier resolves is the one [FeatureTrait]
    gives for the C++ type of the elements. *)
Lemma FeatureTrait_Type_resolved (V : ValueType) :
  FeatureTrait (cpp_type V) = Some (FeatureTrait_Type V).
Proof. destruct V as [t | t | []]; reflexivity. Qed.

(** C8: the resolver maps every integral value type to the feature type
    [protobuf_int64] and so to the kind Int64, every floating-point value
    type to [float] and the kind Float, and every string-like value type
    to [std::string] and the kind Bytes; the owned strings, the string
    view and the C strings (also as character arrays) are string-like. *)
Theorem FeatureTrait_resolves_kind :
  (forall T, is_integral T = true ->
     FeatureTrait T = Some protobuf_int64 /\
     storage_kind T = Some kInt64List) /\
  (forall T, is_floating_point T = true ->
     FeatureTrait T = Some float /\ storage_kind T = Some kFloatList) /\
  (forall T, is_string T = true ->
     FeatureTrait T = Some std_string /\ storage_kind T = Some kBytesList) /\
  (forall t, is_integral (Integral t) = true) /\
  (forall t, is_floating_point (Floating t) = true) /\
  is_string cpp_std_string = true /\
  is_string cpp_tstring = true /\
  is_string cpp_StringPiece = true /\
  is_string (Pointer (Integral cpp_char)) = true /\
  is_string (Pointer (Const (Integral cpp_char))) = true /\
  (forall n, is_string (Array (Integral cpp_char) n) = true) /\
  (forall n, is_string (Reference (Array (Const (Integral cpp_char)) n))
             = true).
Proof.
  repeat split; try reflexivity.
  - unfold FeatureTrait.
    rewrite H, (integral_not_floating T H), (integral_not_string T H).
    reflexivity.
  - unfold storage_kind, FeatureTrait.
    rewrite H, (integral_not_floating T H), (integral_not_string T H).
    reflexivity.
  - unfold FeatureTrait.
    destruct (is_integral T) eqn:Hi.
    + rewrite (integral_not_floating T Hi) in H. discriminate.
    + rewrite H, (floating_not_string T H). reflexivity.
  - unfold storage_kind, FeatureTrait.
    destruct (is_integral T) eqn:Hi.
    + rewrite (integral_not_floating T Hi) in H. discriminate.
    + rewrite H, (floating_not_string T H). reflexivity.
  - unfold FeatureTrait.
    destruct (is_integral T) eqn:Hi.
    + rewrite (integral_not_string T Hi) in H. discriminate.
    + destruct (is_floating_point T) eqn:Hf.
      * rewrite (floating_not_string T Hf) in H. discriminate.
      * rewrite H. reflexivity.
  - unfold storage_kind, FeatureTrait.
    destruct (is_integral T) eqn:Hi.
    + rewrite (integral_not_string T Hi) in H. discriminate.
    + destruct (is_floating_point T) eqn:Hf.
      * rewrite (floating_not_string T Hf) in H. discriminate.
      * rewrite H. reflexivity.
Qed.

Lemma FeatureTrait_resolves_kind_witness :
  (FeatureTrait (Const (Integral cpp_unsigned_long_long)) = Some protobuf_int64 /\
   storage_kind (Const (Integral cpp_unsigned_long_long)) = Some kInt64List) /\
  (FeatureTrait (Floating cpp_double) = Some float /\
   storage_kind (Floating cpp_double) = Some kFloatList) /\
  (FeatureTrait cpp_StringPiece = Some std_string /\
   storage_kind cpp_StringPiece = Some kBytesList).
Proof.
  destruct FeatureTrait_resolves_kind as (Hi & Hf & Hs & _).
  split; [| split].
  - apply Hi. reflexivity.
  - apply Hf. reflexivity.
  - apply Hs. reflexivity.
Defined.

(** Types outside the three families have no feature type. *)
Example FeatureTrait_void : FeatureTrait cpp_void = None.
Proof. reflexivity. Qed.

Example FeatureTrait_const_string : FeatureTrait (Const cpp_std_string) = None.
Proof. reflexivity. Qed.

(** A const character array is a C string in either spelling. *)
Example FeatureTrait_const_array (n : nat) :
  decay (Const (Array (Integral cpp_char) n)) =
    decay (Array (Const (Integral cpp_char)) n) /\
  FeatureTrait (Const (Array (Integral cpp_char) n)) = Some std_string /\
  FeatureTrait (Array (Const (Integral cpp_char)) n) = Some std_string.
Proof. repeat split; reflexivity. Qed.


(** ** Storage of a Feature *)

Lemma storage_set_storage (FT : FeatureType) (l : list (elem FT)) (f : Feature) :
  storage FT (set_storage FT l f) = l.
Proof. destruct FT; reflexivity. Qed.

Lemma set_storage_set_storage (FT : FeatureType) (l l' : list (elem FT))
    (f : Feature) :
  set_storage FT l' (set_storage FT l f) = set_storage FT l' f.
Proof. destruct FT; reflexivity. Qed.

Lemma set_storage_storage (FT : FeatureType) (f : Feature) :
  set_storage FT (storage FT f) f = f.
Proof. destruct FT, f; reflexivity. Qed.

Lemma kind_case_set_storage (FT : FeatureType) (l : list (elem FT))
    (f : Feature) :
  kind_case (set_storage FT l f) = kind_case f.
Proof. destruct FT; reflexivity. Qed.

Lemma storage_set_storage_other (FT FT' : FeatureType) (l : list (elem FT))
    (f : Feature) :
  kind_of FT' <> kind_of FT ->
  storage FT' (set_storage FT l f) = storage FT' f.
Proof. destruct FT, FT'; intros Hne; try reflexivity; contradiction. Qed.

(** The mutable view yields a Feature of the requested kind. *)
Lemma kind_case_GetFeatureValues_mut (FT : FeatureType) (f : Feature) :
  kind_case (GetFeatureValues_mut FT f) = kind_of FT.
Proof.
  unfold GetFeatureValues_mut. destruct (decide _) as [Hk | Hk]; done.
Qed.

Lemma GetFeatureValues_mut_same (FT : FeatureType) (f : Feature) :
  kind_case f = kind_of FT -> GetFeatureValues_mut FT f = f.
Proof.
  intros Hk. unfold GetFeatureValues_mut. rewrite decide_True; done.
Qed.

Lemma GetFeatureValues_mut_switch (FT : FeatureType) (f : Feature) :
  kind_case f <> kind_of FT ->
  GetFeatureValues_mut FT f = mkFeature (kind_of FT) [] [] [].
Proof.
  intros Hk. unfold GetFeatureValues_mut. rewrite decide_False; done.
Qed.

Lemma GetFeatureValues_mut_idemp (FT : FeatureType) (f : Feature) :
  GetFeatureValues_mut FT (GetFeatureValues_mut FT f) =
  GetFeatureValues_mut FT f.
Proof.
  apply GetFeatureValues_mut_same, kind_case_GetFeatureValues_mut.
Qed.

(** Reading a Feature of the matching kind gives its storage. *)
Lemma GetFeatureValues_const_same (FT : FeatureType) (f : Feature) :
  kind_case f = kind_of FT ->
  GetFeatureValues_const FT f = Ok (storage FT f).
Proof.
  intros Hk. unfold GetFeatureValues_const. rewrite decide_True; done.
Qed.

Lemma GetFeatureValues_const_other_kind (FT : FeatureType) (f : Feature) :
  kind_case f <> KIND_NOT_SET -> kind_case f <> kind_of FT ->
  GetFeatureValues_const FT f = Error ForeignKindAccess.
Proof.
  intros Hset Hk. unfold GetFeatureValues_const.
  rewrite !decide_False; done.
Qed.

(** ** The copy loop *)

(** Copying appends the converted elements, in order, to the storage of
    the resolved feature type, and touches nothing else. *)
Lemma copy_into_spec (V : ValueType) (elts : list (cvalue V)) (f : Feature) :
  copy_into V elts f =
  on_values (FeatureTrait_Type V) (fun l => l ++ map (convert V) elts) f.
Proof.
  unfold copy_into, on_values. revert f.
  induction elts as [| elt elts IH]; intros f; simpl.
  - rewrite app_nil_r. symmetry. apply set_storage_storage.
  - rewrite IH. unfold RepeatedField.Add.
    rewrite storage_set_storage, set_storage_set_storage, <- app_assoc.
    reflexivity.
Qed.

Lemma copy_into_app (V : ValueType) (a b : list (cvalue V)) (f : Feature) :
  copy_into V (a ++ b) f = copy_into V b (copy_into V a f).
Proof. unfold copy_into. apply fold_left_app. Qed.

Lemma kind_case_copy_into (V : ValueType) (elts : list (cvalue V))
    (f : Feature) :
  kind_case (copy_into V elts f) = kind_case f.
Proof. rewrite copy_into_spec. apply kind_case_set_storage. Qed.

(** The three overloads of the Feature-level copier agree. *)
Lemma AppendFeatureValues_init_range (V : ValueType)
    (container : list (cvalue V)) (f : Feature) :
  AppendFeatureValues_init V container f =
  AppendFeatureValues_range V container f.
Proof.
  unfold AppendFeatureValues_init, AppendFeatureValues_range, on_values,
    RepeatedField.Reserve.
  rewrite set_storage_storage. reflexivity.
Qed.

Lemma AppendFeatureValues_container_range (V : ValueType) (has_size : bool)
    (container : list (cvalue V)) (f : Feature) :
  AppendFeatureValues V has_size container f =
  AppendFeatureValues_range V container f.
Proof.
  unfold AppendFeatureValues, AppendFeatureValues_range, on_values,
    ReserveIfSizeAvailable, RepeatedField.Reserve.
  destruct has_size; rewrite set_storage_storage; reflexivity.
Qed.

Lemma SetFeatureValues_init_range (V : ValueType)
    (container : list (cvalue V)) (f : Feature) :
  SetFeatureValues_init V container f = SetFeatureValues_range V container f.
Proof.
  unfold SetFeatureValues_init, SetFeatureValues_range.
  apply AppendFeatureValues_init_range.
Qed.

Lemma SetFeatureValues_container_range (V : ValueType) (has_size : bool)
    (container : list (cvalue V)) (f : Feature) :
  SetFeatureValues V has_size container f =
  SetFeatureValues_range V container f.
Proof.
  unfold SetFeatureValues, SetFeatureValues_range.
  apply AppendFeatureValues_container_range.
Qed.

Lemma kind_case_AppendFeatureValues_range (V : ValueType)
    (range : list (cvalue V)) (f : Feature) :
  kind_case (AppendFeatureValues_range V range f) =
  kind_of (FeatureTrait_Type V).
Proof.
  unfold AppendFeatureValues_range.
  rewrite kind_case_copy_into. apply kind_case_GetFeatureValues_mut.
Qed.

Lemma storage_AppendFeatureValues_range (V : ValueType)
    (range : list (cvalue V)) (f : Feature) :
  storage (FeatureTrait_Type V) (AppendFeatureValues_range V range f) =
  storage (FeatureTrait_Type V) (GetFeatureValues_mut (FeatureTrait_Type V) f)
    ++ map (convert V) range.
Proof.
  unfold AppendFeatureValues_range.
  rewrite copy_into_spec. unfold on_values. apply storage_set_storage.
Qed.

(** After a set, the storage of the resolved feature type holds the
    converted elements and nothing else. *)
Lemma storage_SetFeatureValues_range (V : ValueType)
    (range : list (cvalue V)) (f : Feature) :
  storage (FeatureTrait_Type V) (SetFeatureValues_range V range f) =
  map (convert V) range.
Proof.
  unfold SetFeatureValues_range.
  rewrite storage_AppendFeatureValues_range.
  set (FT := FeatureTrait_Type V).
  assert (Hempty : storage FT (GetFeatureValues_mut FT
                                 (ClearFeatureValues FT f)) = []).
  { unfold GetFeatureValues_mut. destruct (decide _) as [Hk | Hk].
    - unfold ClearFeatureValues, on_values. apply storage_set_storage.
    - destruct FT; reflexivity. }
  rewrite Hempty. reflexivity.
Qed.

Lemma representable_map (V : ValueType) (vs : list (cvalue V)) :
  Forall (representable V) vs -> map (convert V) vs = vs.
Proof.
  induction 1 as [| v vs Hv _ IH]; simpl; [reflexivity |].
  rewrite Hv, IH. reflexivity.
Qed.

Lemma wrap_int64_range (z : Z) : - 2 ^ 63 <= wrap_int64 z < 2 ^ 63.
Proof.
  unfold wrap_int64.
  pose proof (Z.mod_pos_bound (z + 2 ^ 63) (2 ^ 64) ltac:(lia)). lia.
Qed.

(** An integer is stored as it is exactly when it fits 64 signed bits; a
    float and the bytes of a string always are. *)
Lemma representable_integral (t : IntegralType) (z : Z) :
  representable (IntegralValue t) z <-> - 2 ^ 63 <= z < 2 ^ 63.
Proof.
  unfold representable; simpl. split.
  - intros Heq. rewrite <- Heq. apply wrap_int64_range.
  - intros Hz. unfold wrap_int64.
    rewrite Z.mod_small by lia. lia.
Qed.

Lemma representable_float (x : spec_float) :
  representable (FloatingValue cpp_float) x.
Proof. reflexivity. Qed.

Lemma representable_string (t : StringType) (s : string) :
  representable (StringValue t) s.
Proof. reflexivity. Qed.

(** ** Round trip of set and read *)

Example one_tenth_double_valid :
  valid_binary 53 1024 one_tenth_double = true.
Proof. reflexivity. Qed.

Example one_tenth_rounds : to_float one_tenth_double = one_tenth_float.
Proof. vm_compute. reflexivity. Qed.

Example doubles_round_exactly :
  map to_float [four_double; five_double; three_double] =
    [four_float; five_float; three_float] /\
  value_in (-51) four_float = value_in (-51) four_double /\
  value_in (-51) five_float = value_in (-51) five_double /\
  value_in (-51) three_float = value_in (-51) three_double.
Proof. vm_compute. auto. Qed.

Example one_tenth_differs :
  value_in (-56) one_tenth_double = Some 7205759403792794 /\
  value_in (-56) one_tenth_float = Some 7205759511166976.
Proof. vm_compute. auto. Qed.

(** C1, as stated, fails: a set of the double nearest to 0.1 followed by a
    read of the float values does not yield that double; the stored value
    is the float it rounds to. *)
Lemma double_roundtrip_inexact :
  GetFeatureValues_const float
    (SetFeatureValues (FloatingValue cpp_double) true [one_tenth_double]
       Feature_default)
  = Ok [one_tenth_float] /\
  GetFeatureValues_const float
    (SetFeatureValues (FloatingValue cpp_double) true [one_tenth_double]
       Feature_default)
  <> Ok [one_tenth_double] /\
  value_in (-56) one_tenth_float <> value_in (-56) one_tenth_double.
Proof. vm_compute. repeat split; [intros Heq | intros Heq]; discriminate Heq. Qed.

(** The same for an integral source: an unsigned 64-bit value from 2^63
    on is read back negative. *)
Example uint64_roundtrip_wraps :
  GetFeatureValues_const protobuf_int64
    (SetFeatureValues (IntegralValue cpp_unsigned_long_long) true [2 ^ 63]
       Feature_default)
  = Ok [- 2 ^ 63].
Proof. vm_compute. reflexivity. Qed.

(** C1 (amended): for every value type and every sequence of its values, a
    set followed by a read of the resolved feature type yields the
    sequence of the values as converted to the storage type, in order, for
    each overload of the setter; where every value is representable in the
    storage type this is the sequence itself. *)
Theorem SetFeatureValues_roundtrip (V : ValueType) (has_size : bool)
    (vs : list (cvalue V)) (f : Feature) :
  (GetFeatureValues_const (FeatureTrait_Type V)
     (SetFeatureValues V has_size vs f) = Ok (map (convert V) vs) /\
   GetFeatureValues_const (FeatureTrait_Type V)
     (SetFeatureValues_init V vs f) = Ok (map (convert V) vs) /\
   GetFeatureValues_const (FeatureTrait_Type V)
     (SetFeatureValues_range V vs f) = Ok (map (convert V) vs)) /\
  (Forall (representable V) vs ->
   GetFeatureValues_const (FeatureTrait_Type V)
     (SetFeatureValues V has_size vs f) = Ok vs /\
   GetFeatureValues_const (FeatureTrait_Type V)
     (SetFeatureValues_init V vs f) = Ok vs /\
   GetFeatureValues_const (FeatureTrait_Type V)
     (SetFeatureValues_range V vs f) = Ok vs).
Proof.
  assert (Hrange : GetFeatureValues_const (FeatureTrait_Type V)
            (SetFeatureValues_range V vs f) = Ok (map (convert V) vs)).
  { rewrite GetFeatureValues_const_same.
    - rewrite storage_SetFeatureValues_range. reflexivity.
    - apply kind_case_AppendFeatureValues_range. }
  rewrite SetFeatureValues_container_range, SetFeatureValues_init_range.
  split; [auto |].
  intros Hrep. rewrite Hrange, (representable_map V vs Hrep). auto.
Qed.

Lemma SetFeatureValues_roundtrip_witness :
  Forall (representable (IntegralValue cpp_int)) [1; 2; 3] /\
  GetFeatureValues_const protobuf_int64
    (SetFeatureValues (IntegralValue cpp_int) true [1; 2; 3]
       (mkFeature kBytesList ["a"%string] [] []))
  = Ok [1; 2; 3].
Proof.
  split; [repeat constructor |].
  apply (SetFeatureValues_roundtrip (IntegralValue cpp_int) true [1; 2; 3]).
  repeat constructor.
Defined.

(** ** Bulk append *)

(** C6: appending A and then B leaves the Feature as a single append of A
    followed by B does, for the container, the initializer-list and the
    iterator-range overloads. *)
Theorem AppendFeatureValues_app (V : ValueType) (has_size : bool)
    (A B : list (cvalue V)) (f : Feature) :
  AppendFeatureValues V has_size B (AppendFeatureValues V has_size A f) =
  AppendFeatureValues V has_size (A ++ B) f /\
  AppendFeatureValues_init V B (AppendFeatureValues_init V A f) =
  AppendFeatureValues_init V (A ++ B) f /\
  AppendFeatureValues_range V B (AppendFeatureValues_range V A f) =
  AppendFeatureValues_range V (A ++ B) f.
Proof.
  assert (Hrange :
    AppendFeatureValues_range V B (AppendFeatureValues_range V A f) =
    AppendFeatureValues_range V (A ++ B) f).
  { unfold AppendFeatureValues_range at 1.
    rewrite GetFeatureValues_mut_same
      by apply kind_case_AppendFeatureValues_range.
    unfold AppendFeatureValues_range. symmetry. apply copy_into_app. }
  rewrite !AppendFeatureValues_container_range,
    !AppendFeatureValues_init_range.
  auto.
Qed.

(** ** Clearing *)

(** C5: clearing a feature type empties its storage, keeps the
    discriminant and keeps the storage of the other kinds. *)
Theorem ClearFeatureValues_frame (FT : FeatureType) (f : Feature) :
  storage FT (ClearFeatureValues FT f) = [] /\
  kind_case (ClearFeatureValues FT f) = kind_case f /\
  (forall FT', kind_of FT' <> kind_of FT ->
     storage FT' (ClearFeatureValues FT f) = storage FT' f).
Proof.
  unfold ClearFeatureValues, on_values, RepeatedField.Clear.
  split; [apply storage_set_storage |].
  split; [apply kind_case_set_storage |].
  intros FT' Hne. apply storage_set_storage_other. exact Hne.
Qed.

Lemma ClearFeatureValues_frame_witness :
  kind_of protobuf_int64 <> kind_of float /\
  storage protobuf_int64
    (ClearFeatureValues float (mkFeature kInt64List [] [] [7])) = [7].
Proof.
  split; [discriminate |].
  apply (ClearFeatureValues_frame float (mkFeature kInt64List [] [] [7])).
  discriminate.
Defined.

(** On a Feature that satisfies the oneof invariant and holds another
    kind, clearing changes nothing. *)
Lemma ClearFeatureValues_other_kind (FT : FeatureType) (f : Feature) :
  oneof_invariant f -> kind_case f <> kind_of FT ->
  ClearFeatureValues FT f = f.
Proof.
  intros [(Hb & Hf & Hi) _] Hk.
  assert (Hempty : storage FT f = []).
  { destruct FT; simpl in *.
    - destruct (int64_list f); [done |]. destruct Hk. apply Hi. done.
    - destruct (float_list f); [done |]. destruct Hk. apply Hf. done.
    - destruct (bytes_list f); [done |]. destruct Hk. apply Hb. done.
    - destruct (bytes_list f); [done |]. destruct Hk. apply Hb. done. }
  unfold ClearFeatureValues, on_values, RepeatedField.Clear.
  rewrite <- Hempty. apply set_storage_storage.
Qed.

(** ** Reading a foreign kind *)

(** C4: on a Feature whose discriminant is a kind other than the one of the
    requested feature type, the const view fails with ForeignKindAccess. *)
Theorem GetFeatureValues_const_foreign (FT : FeatureType) (f : Feature) :
  kind_case f <> KIND_NOT_SET -> kind_case f <> kind_of FT ->
  GetFeatureValues_const FT f = Error ForeignKindAccess /\
  (forall (key : string) (fs : Features),
     feature fs !! key = Some f ->
     GetFeatureValues_key_const FT key fs = Error ForeignKindAccess).
Proof.
  intros Hset Hk. split.
  - apply GetFeatureValues_const_other_kind; assumption.
  - intros key fs Hf. unfold GetFeatureValues_key_const, Map.at_; simpl.
    rewrite Hf. apply GetFeatureValues_const_other_kind; assumption.
Qed.

Lemma GetFeatureValues_const_foreign_witness :
  kind_case (mkFeature kFloatList [] [one_tenth_float] []) <> KIND_NOT_SET /\
  kind_case (mkFeature kFloatList [] [one_tenth_float] []) <>
    kind_of protobuf_int64 /\
  GetFeatureValues_const protobuf_int64
    (mkFeature kFloatList [] [one_tenth_float] [])
  = Error ForeignKindAccess.
Proof.
  split; [discriminate |]. split; [discriminate |].
  apply GetFeatureValues_const_foreign; discriminate.
Defined.

(** ** Keyed access *)

Lemma Map_index_lookup {V} (d : V) (key : string) (m : gmap string V) :
  Map.index d key m !! key = Some (default d (m !! key)).
Proof.
  unfold Map.index. destruct (m !! key) eqn:Hm; simpl.
  - exact Hm.
  - apply lookup_insert_eq.
Qed.

Lemma Map_index_lookup_ne {V} (d : V) (key key' : string)
    (m : gmap string V) :
  key <> key' -> Map.index d key m !! key' = m !! key'.
Proof.
  intros Hne. unfold Map.index. destruct (m !! key); [reflexivity |].
  apply lookup_insert_ne. exact Hne.
Qed.

Lemma Map_index_present {V} (d : V) (key : string) (m : gmap string V) :
  is_Some (m !! key) -> Map.index d key m = m.
Proof. intros [v Hv]. unfold Map.index. rewrite Hv. reflexivity. Qed.

Section KeyedFacts.
Context {ProtoType : Type} `{TypeHasFeatures ProtoType}.

Lemma GetFeatures_GetFeature_mut (key : string) (proto : ProtoType) :
  feature (GetFeatures (GetFeature_mut key proto)) =
  Map.index Feature_default key (feature (GetFeatures proto)).
Proof.
  unfold GetFeature_mut. rewrite GetFeatures_with_features. reflexivity.
Qed.

Lemma lookup_GetFeature_mut (key : string) (proto : ProtoType) :
  feature (GetFeatures (GetFeature_mut key proto)) !! key =
  Some (default Feature_default (feature (GetFeatures proto) !! key)).
Proof. rewrite GetFeatures_GetFeature_mut. apply Map_index_lookup. Qed.

Lemma lookup_at_key (key : string) (op : Feature -> Feature)
    (proto : ProtoType) :
  feature (GetFeatures (at_key key op proto)) !! key =
  Some (op (default Feature_default (feature (GetFeatures proto) !! key))).
Proof.
  unfold at_key. rewrite GetFeatures_with_features.
  unfold on_feature; simpl.
  rewrite lookup_alter_eq, Map_index_lookup. reflexivity.
Qed.

Lemma lookup_at_key_ne (key key' : string) (op : Feature -> Feature)
    (proto : ProtoType) :
  key <> key' ->
  feature (GetFeatures (at_key key op proto)) !! key' =
  feature (GetFeatures proto) !! key'.
Proof.
  intros Hne. unfold at_key. rewrite GetFeatures_with_features.
  unfold on_feature; simpl.
  rewrite lookup_alter_ne, Map_index_lookup_ne; done.
Qed.

End KeyedFacts.

Lemma HasFeature_membership (key : string) (fs : Features) :
  HasFeature None key fs = true <-> is_Some (feature fs !! key).
Proof.
  unfold HasFeature. destruct (feature fs !! key) as [f |]; split.
  - eauto.
  - reflexivity.
  - discriminate.
  - intros [f Hf]. discriminate.
Qed.

Lemma HasFeature_typed (FT : FeatureType) (key : string) (fs : Features) :
  HasFeature (Some FT) key fs = true <->
  exists f, feature fs !! key = Some f /\ kind_case f = kind_of FT.
Proof.
  unfold HasFeature. destruct (feature fs !! key) as [f |]; split.
  - intros Hk. apply bool_decide_eq_true in Hk. eauto.
  - intros (g & [= <-] & Hk). apply bool_decide_eq_true. exact Hk.
  - discriminate.
  - intros (g & Hg & _). discriminate.
Qed.

(** C3: the const GetFeature fails with a LookupError whenever the key is
    absent; the mutable GetFeature yields a proto in which the key maps to
    a Feature, the one it had or else a new empty one, and which is
    otherwise unchanged, so the const lookup of the key then succeeds and
    HasFeature holds although no value was appended; and it still holds
    after an append of zero values. *)
Theorem GetFeature_lookup_or_create :
  forall (ProtoType : Type) (HF : TypeHasFeatures ProtoType)
         (key : string) (proto : ProtoType),
  (feature (GetFeatures proto) !! key = None ->
   GetFeature_const key proto = Error LookupError) /\
  GetFeature_const key (GetFeature_mut key proto) =
    Ok (default Feature_default (feature (GetFeatures proto) !! key)) /\
  (is_Some (feature (GetFeatures proto) !! key) ->
   feature (GetFeatures (GetFeature_mut key proto)) =
   feature (GetFeatures proto)) /\
  (forall key', key <> key' ->
     feature (GetFeatures (GetFeature_mut key proto)) !! key' =
     feature (GetFeatures proto) !! key') /\
  HasFeature None key (GetFeatures (GetFeature_mut key proto)) = true /\
  (forall example : Example,
     HasFeature_Example None key (GetFeature_mut key example) = true) /\
  (forall (V : ValueType) (has_size : bool),
     HasFeature None key
       (GetFeatures (AppendFeatureValues_key V has_size [] key proto))
     = true).
Proof.
  intros ProtoType HF key proto.
  split; [| split; [| split; [| split; [| split; [| split]]]]].
  - intros Habsent. unfold GetFeature_const, Map.at_.
    rewrite Habsent. reflexivity.
  - unfold GetFeature_const, Map.at_.
    rewrite lookup_GetFeature_mut. reflexivity.
  - intros Hpresent. rewrite GetFeatures_GetFeature_mut.
    apply Map_index_present, Hpresent.
  - intros key' Hne. rewrite GetFeatures_GetFeature_mut.
    apply Map_index_lookup_ne, Hne.
  - apply HasFeature_membership. rewrite lookup_GetFeature_mut. eauto.
  - intros example. unfold HasFeature_Example.
    apply HasFeature_membership. rewrite lookup_GetFeature_mut. eauto.
  - intros V has_size. apply HasFeature_membership.
    unfold AppendFeatureValues_key. rewrite lookup_at_key. eauto.
Qed.

Lemma GetFeature_lookup_or_create_witness :
  feature (GetFeatures (mkExample (mkFeatures ∅))) !! "tag"%string = None /\
  GetFeature_const "tag" (mkExample (mkFeatures ∅)) = Error LookupError.
Proof.
  split; [reflexivity |].
  apply (GetFeature_lookup_or_create Example _ "tag"%string
           (mkExample (mkFeatures ∅))).
  reflexivity.
Defined.

(** C7: the typed HasFeature holds exactly when the key is present and the
    discriminant of its Feature is the kind of the feature type, so it is
    false for a present key that holds another kind; the untyped
    HasFeature holds exactly when the key is present; HasFeature on an
    Example is HasFeature on its Features. *)
Theorem HasFeature_membership_and_kind (FT : FeatureType) (key : string)
    (fs : Features) :
  (HasFeature (Some FT) key fs = true <->
   exists f, feature fs !! key = Some f /\ kind_case f = kind_of FT) /\
  (forall f, feature fs !! key = Some f -> kind_case f <> kind_of FT ->
     HasFeature (Some FT) key fs = false) /\
  (HasFeature None key fs = true <-> is_Some (feature fs !! key)) /\
  (forall (o : option FeatureType) (example : Example),
     HasFeature_Example o key example = HasFeature o key (features example)).
Proof.
  split; [apply HasFeature_typed |].
  split; [| split; [apply HasFeature_membership | reflexivity]].
  intros f Hf Hk. unfold HasFeature. rewrite Hf.
  apply bool_decide_eq_false. exact Hk.
Qed.

Lemma HasFeature_membership_and_kind_witness :
  HasFeature (Some protobuf_int64) "tag"
    (mkFeatures {[ "tag"%string := mkFeature kFloatList [] [one_tenth_float] [] ]})
  = false /\
  HasFeature None "tag"
    (mkFeatures {[ "tag"%string := mkFeature kFloatList [] [one_tenth_float] [] ]})
  = true.
Proof.
  pose proof (HasFeature_membership_and_kind protobuf_int64 "tag"%string
    (mkFeatures {[ "tag"%string := mkFeature kFloatList [] [one_tenth_float] [] ]}))
    as (_ & Hother & Hany & _).
  split.
  - apply (Hother (mkFeature kFloatList [] [one_tenth_float] [])).
    + apply lookup_singleton_eq.
    + discriminate.
  - apply Hany. exists (mkFeature kFloatList [] [one_tenth_float] []).
    apply lookup_singleton_eq.
Defined.

(** ** Appending nothing *)

Lemma kind_of_set (FT : FeatureType) : KIND_NOT_SET <> kind_of FT.
Proof. destruct FT; discriminate. Qed.

Lemma AppendFeatureValues_range_nil (V : ValueType) (f : Feature) :
  AppendFeatureValues_range V [] f =
  GetFeatureValues_mut (FeatureTrait_Type V) f.
Proof. reflexivity. Qed.

(** C10: an append of an empty source is the mutable view of the resolved
    feature type, for every overload; on a Feature whose discriminant is
    not that kind it sets the discriminant, leaves every list empty and so
    changes the Feature; with a key that is absent, the keyed overloads
    create the entry, of the resolved kind and empty. *)
Theorem AppendFeatureValues_empty_source (V : ValueType) (has_size : bool)
    (f : Feature) :
  (AppendFeatureValues V has_size [] f =
     GetFeatureValues_mut (FeatureTrait_Type V) f /\
   AppendFeatureValues_init V [] f =
     GetFeatureValues_mut (FeatureTrait_Type V) f /\
   AppendFeatureValues_range V [] f =
     GetFeatureValues_mut (FeatureTrait_Type V) f) /\
  (kind_case f <> kind_of (FeatureTrait_Type V) ->
   AppendFeatureValues V has_size [] f =
     mkFeature (kind_of (FeatureTrait_Type V)) [] [] [] /\
   AppendFeatureValues V has_size [] f <> f) /\
  (forall (ProtoType : Type) (HF : TypeHasFeatures ProtoType)
          (key : string) (proto : ProtoType),
     feature (GetFeatures proto) !! key = None ->
     feature (GetFeatures (AppendFeatureValues_key V has_size [] key proto))
       !! key = Some (mkFeature (kind_of (FeatureTrait_Type V)) [] [] []) /\
     feature (GetFeatures (AppendFeatureValues_init_key V [] key proto))
       !! key = Some (mkFeature (kind_of (FeatureTrait_Type V)) [] [] []) /\
     feature (GetFeatures (AppendFeatureValues_range_key V [] key proto))
       !! key = Some (mkFeature (kind_of (FeatureTrait_Type V)) [] [] [])).
Proof.
  rewrite AppendFeatureValues_container_range, AppendFeatureValues_init_range,
    AppendFeatureValues_range_nil.
  split; [auto |]. split.
  - intros Hk. rewrite GetFeatureValues_mut_switch by exact Hk.
    split; [reflexivity |].
    intros Heq. apply Hk. rewrite <- Heq. reflexivity.
  - intros ProtoType HF key proto Habsent.
    unfold AppendFeatureValues_key, AppendFeatureValues_init_key,
      AppendFeatureValues_range_key.
    rewrite !lookup_at_key, Habsent; simpl.
    rewrite AppendFeatureValues_container_range,
      AppendFeatureValues_init_range, AppendFeatureValues_range_nil.
    rewrite GetFeatureValues_mut_switch by apply kind_of_set.
    auto.
Qed.

Lemma AppendFeatureValues_empty_source_witness :
  kind_case (mkFeature kBytesList ["lorem ipsum"%string] [] []) <>
    kind_of (FeatureTrait_Type (IntegralValue cpp_int)) /\
  AppendFeatureValues (IntegralValue cpp_int) true []
    (mkFeature kBytesList ["lorem ipsum"%string] [] [])
  = mkFeature kInt64List [] [] [] /\
  feature (mkFeatures ∅) !! "tag"%string = None /\
  feature (AppendFeatureValues_key (IntegralValue cpp_int) true [] "tag"
             (mkFeatures ∅)) !! "tag"%string
  = Some (mkFeature kInt64List [] [] []).
Proof.
  pose proof (AppendFeatureValues_empty_source (IntegralValue cpp_int) true
    (mkFeature kBytesList ["lorem ipsum"%string] [] []))
    as (_ & Hswitch & Hkey).
  split; [discriminate |].
  split.
  { destruct Hswitch as [Heq _]; [discriminate | exact Heq]. }
  split; [reflexivity |].
  destruct (Hkey Features _ "tag"%string (mkFeatures ∅)) as [Hcreated _];
    [reflexivity | exact Hcreated].
Defined.

(** ** Lists of Features *)

Lemma on_last_snoc (op : Feature -> Feature) (l : list Feature)
    (d : Feature) :
  on_last op (l ++ [d]) = l ++ [op d].
Proof.
  unfold on_last. rewrite length_app; simpl.
  replace (Nat.pred (length l + 1)) with (length l + 0)%nat by lia.
  rewrite alter_app_r. reflexivity.
Qed.

Lemma lookup_at_new_feature (key : string) (op : Feature -> Feature)
    (se : SequenceExample) :
  feature_lists (at_new_feature key op se) !! key =
  Some (default [] (feature_lists se !! key) ++ [op Feature_default]).
Proof.
  unfold at_new_feature, on_feature_list, GetFeatureList_mut; simpl.
  rewrite !lookup_alter_eq, Map_index_lookup; simpl.
  unfold Add_feature, RepeatedField.Add. rewrite on_last_snoc. reflexivity.
Qed.

Lemma lookup_at_new_feature_ne (key key' : string) (op : Feature -> Feature)
    (se : SequenceExample) :
  key <> key' ->
  feature_lists (at_new_feature key op se) !! key' =
  feature_lists se !! key'.
Proof.
  intros Hne.
  unfold at_new_feature, on_feature_list, GetFeatureList_mut; simpl.
  rewrite !lookup_alter_ne, Map_index_lookup_ne; done.
Qed.

(** ** The oneof invariant *)

Lemma agrees_exclusive (f : Feature) : agrees f -> exclusive f.
Proof.
  intros (Hb & Hf & Hi). repeat split; intros [H1 H2].
  - specialize (Hb H1). specialize (Hf H2). congruence.
  - specialize (Hb H1). specialize (Hi H2). congruence.
  - specialize (Hf H1). specialize (Hi H2). congruence.
Qed.

Lemma oneof_invariant_agrees (f : Feature) : oneof_invariant f <-> agrees f.
Proof.
  split; [intros [Ha _]; exact Ha |].
  intros Ha. split; [exact Ha | apply agrees_exclusive, Ha].
Qed.

Lemma oneof_invariant_empty (k : KindCase) :
  oneof_invariant (mkFeature k [] [] []).
Proof. apply oneof_invariant_agrees. repeat split; simpl; done. Qed.

Lemma oneof_invariant_set_storage (FT : FeatureType) (l : list (elem FT))
    (f : Feature) :
  kind_case f = kind_of FT -> oneof_invariant f ->
  oneof_invariant (set_storage FT l f).
Proof.
  rewrite !oneof_invariant_agrees. intros Hk (Hb & Hf & Hi).
  destruct FT; repeat split; simpl in *; auto.
Qed.

Lemma oneof_invariant_set_storage_nil (FT : FeatureType) (f : Feature) :
  oneof_invariant f -> oneof_invariant (set_storage FT [] f).
Proof.
  rewrite !oneof_invariant_agrees. intros (Hb & Hf & Hi).
  destruct FT; repeat split; simpl in *; auto; done.
Qed.

Lemma oneof_invariant_GetFeatureValues_mut (FT : FeatureType) (f : Feature) :
  oneof_invariant f -> oneof_invariant (GetFeatureValues_mut FT f).
Proof.
  intros Hinv. unfold GetFeatureValues_mut.
  destruct (decide _); [exact Hinv | apply oneof_invariant_empty].
Qed.

Lemma oneof_invariant_ClearFeatureValues (FT : FeatureType) (f : Feature) :
  oneof_invariant f -> oneof_invariant (ClearFeatureValues FT f).
Proof. apply oneof_invariant_set_storage_nil. Qed.

Lemma oneof_invariant_AppendFeatureValues_range (V : ValueType)
    (range : list (cvalue V)) (f : Feature) :
  oneof_invariant f -> oneof_invariant (AppendFeatureValues_range V range f).
Proof.
  intros Hinv. unfold AppendFeatureValues_range.
  rewrite copy_into_spec. unfold on_values.
  apply oneof_invariant_set_storage.
  - apply kind_case_GetFeatureValues_mut.
  - apply oneof_invariant_GetFeatureValues_mut, Hinv.
Qed.

Lemma oneof_invariant_SetFeatureValues_range (V : ValueType)
    (range : list (cvalue V)) (f : Feature) :
  oneof_invariant f -> oneof_invariant (SetFeatureValues_range V range f).
Proof.
  intros Hinv. unfold SetFeatureValues_range.
  apply oneof_invariant_AppendFeatureValues_range,
    oneof_invariant_ClearFeatureValues, Hinv.
Qed.

(** A set under another kind leaves nothing of the old kind. *)
Lemma storage_SetFeatureValues_range_other (V : ValueType)
    (range : list (cvalue V)) (FT : FeatureType) (f : Feature) :
  kind_case f = kind_of FT -> kind_of FT <> kind_of (FeatureTrait_Type V) ->
  storage FT (SetFeatureValues_range V range f) = [].
Proof.
  intros Hk Hne.
  unfold SetFeatureValues_range, AppendFeatureValues_range.
  rewrite copy_into_spec. unfold on_values.
  rewrite storage_set_storage_other by exact Hne.
  rewrite GetFeatureValues_mut_switch.
  - destruct FT; reflexivity.
  - unfold ClearFeatureValues, on_values.
    rewrite kind_case_set_storage, Hk. exact Hne.
Qed.

Lemma Features_invariant_at_key {ProtoType : Type}
    `{TypeHasFeatures ProtoType} (key : string) (op : Feature -> Feature)
    (proto : ProtoType) :
  (forall f, oneof_invariant f -> oneof_invariant (op f)) ->
  Features_invariant (GetFeatures proto) ->
  Features_invariant (GetFeatures (at_key key op proto)).
Proof.
  intros Hop Hinv. unfold Features_invariant in *.
  rewrite map_Forall_lookup in Hinv. apply map_Forall_lookup.
  intros i x Hix. destruct (decide (key = i)) as [<- | Hne].
  - rewrite lookup_at_key in Hix. injection Hix as <-. apply Hop.
    destruct (feature (GetFeatures proto) !! key) as [g |] eqn:Hg; simpl.
    + apply (Hinv key g Hg).
    + apply oneof_invariant_empty.
  - rewrite lookup_at_key_ne in Hix by exact Hne. apply (Hinv i x Hix).
Qed.

Lemma Features_invariant_GetFeature_mut {ProtoType : Type}
    `{TypeHasFeatures ProtoType} (key : string) (proto : ProtoType) :
  Features_invariant (GetFeatures proto) ->
  Features_invariant (GetFeatures (GetFeature_mut key proto)).
Proof.
  intros Hinv. unfold Features_invariant in *.
  rewrite GetFeatures_GetFeature_mut. unfold Map.index.
  destruct (feature (GetFeatures proto) !! key); [exact Hinv |].
  apply map_Forall_insert_2; [apply oneof_invariant_empty | exact Hinv].
Qed.

Lemma Features_invariant_GetFeatureValues_key_mut {ProtoType : Type}
    `{TypeHasFeatures ProtoType} (FT : FeatureType) (key : string)
    (proto : ProtoType) :
  Features_invariant (GetFeatures proto) ->
  Features_invariant (GetFeatures (GetFeatureValues_key_mut FT key proto)).
Proof.
  intros Hinv.
  apply (Features_invariant_at_key key (GetFeatureValues_mut FT) proto);
    [| exact Hinv].
  intros f Hf. apply oneof_invariant_GetFeatureValues_mut, Hf.
Qed.

Lemma FeatureLists_invariant_at_new_feature (key : string)
    (op : Feature -> Feature) (se : SequenceExample) :
  (forall f, oneof_invariant f -> oneof_invariant (op f)) ->
  FeatureLists_invariant se ->
  FeatureLists_invariant (at_new_feature key op se).
Proof.
  intros Hop Hinv. unfold FeatureLists_invariant in *.
  rewrite map_Forall_lookup in Hinv. apply map_Forall_lookup.
  intros i l Hil. destruct (decide (key = i)) as [<- | Hne].
  - rewrite lookup_at_new_feature in Hil. injection Hil as <-.
    apply Forall_app. split.
    + destruct (feature_lists se !! key) as [l |] eqn:Hl; simpl.
      * apply (Hinv key l Hl).
      * constructor.
    + constructor; [apply Hop, oneof_invariant_empty | constructor].
  - rewrite lookup_at_new_feature_ne in Hil by exact Hne.
    apply (Hinv i l Hil).
Qed.

Lemma kind_case_SetFeatureValues_range (V : ValueType)
    (range : list (cvalue V)) (f : Feature) :
  kind_case (SetFeatureValues_range V range f) =
  kind_of (FeatureTrait_Type V).
Proof. apply kind_case_AppendFeatureValues_range. Qed.

(** C2, as stated, fails in its last part: after a set of the integers 1,
    2, 3 and then a set of the double nearest to 0.1 on a new Feature, the
    integers are gone, but the read of the float values does not yield
    that double; it yields the float the double rounds to, another
    number. *)
Lemma set_after_set_inexact :
  GetFeatureValues_const float
    (SetFeatureValues (FloatingValue cpp_double) true [one_tenth_double]
       (SetFeatureValues (IntegralValue cpp_int) true [1; 2; 3]
          Feature_default))
  = Ok [one_tenth_float] /\
  GetFeatureValues_const float
    (SetFeatureValues (FloatingValue cpp_double) true [one_tenth_double]
       (SetFeatureValues (IntegralValue cpp_int) true [1; 2; 3]
          Feature_default))
  <> Ok [one_tenth_double] /\
  value_in (-56) one_tenth_float <> value_in (-56) one_tenth_double.
Proof.
  vm_compute. split; [reflexivity |].
  split; intros Heq; discriminate Heq.
Qed.

(** C2 (amended): a new Feature satisfies the oneof invariant (the
    discriminant names the list that holds values, and no two lists hold
    values), and the mutable view, the clear, every append and every set
    preserve it, on a Feature, through a key and on a Feature added to a
    feature list; after a set under one kind and a set under another kind,
    the storage of the first kind is empty, a read of it is a
    ForeignKindAccess, and a read of the second kind yields exactly the
    values of the second set as converted to the storage type, which are
    the values themselves when they are representable in it. *)
Theorem oneof_invariant_preserved :
  oneof_invariant Feature_default /\
  (forall f, oneof_invariant f ->
     (forall FT,
        oneof_invariant (GetFeatureValues_mut FT f) /\
        oneof_invariant (ClearFeatureValues FT f)) /\
     (forall V has_size (c : list (cvalue V)),
        oneof_invariant (AppendFeatureValues V has_size c f) /\
        oneof_invariant (AppendFeatureValues_init V c f) /\
        oneof_invariant (AppendFeatureValues_range V c f) /\
        oneof_invariant (SetFeatureValues V has_size c f) /\
        oneof_invariant (SetFeatureValues_init V c f) /\
        oneof_invariant (SetFeatureValues_range V c f))) /\
  (forall (ProtoType : Type) (HF : TypeHasFeatures ProtoType)
          (key : string) (proto : ProtoType),
     Features_invariant (GetFeatures proto) ->
     Features_invariant (GetFeatures (GetFeature_mut key proto)) /\
     (forall FT,
        Features_invariant
          (GetFeatures (GetFeatureValues_key_mut FT key proto))) /\
     (forall V has_size (c : list (cvalue V)),
        Features_invariant
          (GetFeatures (AppendFeatureValues_key V has_size c key proto)) /\
        Features_invariant
          (GetFeatures (AppendFeatureValues_init_key V c key proto)) /\
        Features_invariant
          (GetFeatures (AppendFeatureValues_range_key V c key proto)) /\
        Features_invariant
          (GetFeatures (SetFeatureValues_key V has_size c key proto)) /\
        Features_invariant
          (GetFeatures (SetFeatureValues_init_key V c key proto)) /\
        Features_invariant
          (GetFeatures (SetFeatureValues_range_key V c key proto)))) /\
  (forall key V (c : list (cvalue V)) se,
     FeatureLists_invariant se ->
     FeatureLists_invariant
       (at_new_feature key (AppendFeatureValues_init V c) se)) /\
  (forall Va Vb ha hb (a : list (cvalue Va)) (b : list (cvalue Vb)) f,
     kind_of (FeatureTrait_Type Va) <> kind_of (FeatureTrait_Type Vb) ->
     storage (FeatureTrait_Type Va)
       (SetFeatureValues Vb hb b (SetFeatureValues Va ha a f)) = [] /\
     GetFeatureValues_const (FeatureTrait_Type Va)
       (SetFeatureValues Vb hb b (SetFeatureValues Va ha a f))
       = Error ForeignKindAccess /\
     GetFeatureValues_const (FeatureTrait_Type Vb)
       (SetFeatureValues Vb hb b (SetFeatureValues Va ha a f))
       = Ok (map (convert Vb) b) /\
     (Forall (representable Vb) b ->
      GetFeatureValues_const (FeatureTrait_Type Vb)
        (SetFeatureValues Vb hb b (SetFeatureValues Va ha a f))
        = Ok b)).
Proof.
  split; [apply oneof_invariant_empty |].
  split; [| split; [| split]].
  - intros f Hinv. split.
    + intros FT. split.
      * apply oneof_invariant_GetFeatureValues_mut, Hinv.
      * apply oneof_invariant_ClearFeatureValues, Hinv.
    + intros V has_size c.
      rewrite AppendFeatureValues_container_range,
        AppendFeatureValues_init_range, SetFeatureValues_container_range,
        SetFeatureValues_init_range.
      pose proof (oneof_invariant_AppendFeatureValues_range V c f Hinv).
      pose proof (oneof_invariant_SetFeatureValues_range V c f Hinv).
      auto 10.
  - intros ProtoType HF key proto Hinv.
    split; [apply Features_invariant_GetFeature_mut, Hinv |].
    split; [intros FT;
            apply Features_invariant_GetFeatureValues_key_mut, Hinv |].
    intros V has_size c.
    split; [| split; [| split; [| split; [| split]]]];
      apply Features_invariant_at_key; try exact Hinv;
      intros f Hf;
      rewrite ?AppendFeatureValues_container_range,
        ?AppendFeatureValues_init_range, ?SetFeatureValues_container_range,
        ?SetFeatureValues_init_range;
      first [ apply oneof_invariant_AppendFeatureValues_range, Hf
            | apply oneof_invariant_SetFeatureValues_range, Hf ].
  - intros key V c se Hinv.
    apply FeatureLists_invariant_at_new_feature; [| exact Hinv].
    intros f Hf. rewrite AppendFeatureValues_init_range.
    apply oneof_invariant_AppendFeatureValues_range, Hf.
  - intros Va Vb ha hb a b f Hne.
    rewrite !SetFeatureValues_container_range.
    assert (Hcase : kind_case (SetFeatureValues_range Vb b
                                 (SetFeatureValues_range Va a f))
                    = kind_of (FeatureTrait_Type Vb))
      by apply kind_case_SetFeatureValues_range.
    assert (Hread : GetFeatureValues_const (FeatureTrait_Type Vb)
              (SetFeatureValues_range Vb b (SetFeatureValues_range Va a f))
              = Ok (map (convert Vb) b)).
    { rewrite GetFeatureValues_const_same by exact Hcase.
      rewrite storage_SetFeatureValues_range. reflexivity. }
    split; [| split; [| split]].
    + apply storage_SetFeatureValues_range_other; [| exact Hne].
      apply kind_case_SetFeatureValues_range.
    + apply GetFeatureValues_const_other_kind; rewrite Hcase.
      * intros Heq. symmetry in Heq. revert Heq. apply kind_of_set.
      * intros Heq. apply Hne. symmetry. exact Heq.
    + exact Hread.
    + intros Hrep. rewrite Hread, (representable_map Vb b Hrep).
      reflexivity.
Qed.

Lemma oneof_invariant_preserved_witness :
  Forall (representable (StringValue string_view)) ["lorem ipsum"%string] /\
  oneof_invariant Feature_default /\
  oneof_invariant
    (SetFeatureValues (IntegralValue cpp_int) true [1; 2; 3] Feature_default) /\
  kind_of (FeatureTrait_Type (IntegralValue cpp_int)) <>
    kind_of (FeatureTrait_Type (StringValue string_view)) /\
  storage protobuf_int64
    (SetFeatureValues (StringValue string_view) true ["lorem ipsum"%string]
       (SetFeatureValues (IntegralValue cpp_int) true [1; 2; 3]
          Feature_default)) = [] /\
  GetFeatureValues_const std_string
    (SetFeatureValues (StringValue string_view) true ["lorem ipsum"%string]
       (SetFeatureValues (IntegralValue cpp_int) true [1; 2; 3]
          Feature_default)) = Ok ["lorem ipsum"%string].
Proof.
  destruct oneof_invariant_preserved as (Hdef & Hops & _ & _ & Hswitch).
  split; [repeat constructor |].
  split; [exact Hdef |].
  split.
  { destruct (Hops Feature_default Hdef) as [_ Hcopy].
    apply (Hcopy (IntegralValue cpp_int) true [1; 2; 3]). }
  split; [discriminate |].
  destruct (Hswitch (IntegralValue cpp_int) (StringValue string_view)
              true true [1; 2; 3] ["lorem ipsum"%string] Feature_default)
    as (Hgone & _ & _ & Hread); [discriminate |].
  split; [exact Hgone |].
  apply Hread. repeat constructor.
Defined.

(** ** Feature lists *)

Lemma lookup_at_new_features (key : string) (ops : list (Feature -> Feature))
    (se : SequenceExample) :
  default [] (feature_lists (at_new_features key ops se) !! key) =
  default [] (feature_lists se !! key)
    ++ map (fun op => op Feature_default) ops.
Proof.
  unfold at_new_features. revert se.
  induction ops as [| op ops IH]; intros se; simpl.
  - rewrite app_nil_r. reflexivity.
  - rewrite IH, lookup_at_new_feature; simpl.
    rewrite <- app_assoc. reflexivity.
Qed.

Lemma at_new_features_present (key : string)
    (ops : list (Feature -> Feature)) (se : SequenceExample) :
  is_Some (feature_lists se !! key) ->
  is_Some (feature_lists (at_new_features key ops se) !! key).
Proof.
  unfold at_new_features. revert se.
  induction ops as [| op ops IH]; intros se Hse; simpl; [exact Hse |].
  apply IH. rewrite lookup_at_new_feature. eauto.
Qed.

(** C9: copier calls on Features newly added through the mutable
    GetFeatureList of a key extend the list of the key by one Feature per
    call, in call order, after the Features it held, and leave the other
    keys alone; with at least one call the const GetFeatureList of the key
    yields that list.  In particular an append of 4.0 to a new Feature and
    then of 5.0 and 3.0 to another one under the key images, on an empty
    SequenceExample, gives the float lists 4.0 and then 5.0, 3.0. *)
Theorem GetFeatureList_call_order :
  (forall key ops se,
     default [] (feature_lists (at_new_features key ops se) !! key) =
     default [] (feature_lists se !! key)
       ++ map (fun op => op Feature_default) ops) /\
  (forall key op ops se,
     GetFeatureList_const key (at_new_features key (op :: ops) se) =
     Ok (default [] (feature_lists se !! key)
           ++ map (fun op => op Feature_default) (op :: ops)) /\
     HasFeatureList key (at_new_features key (op :: ops) se) = true) /\
  (forall key key' op se,
     key <> key' ->
     feature_lists (at_new_feature key op se) !! key' =
     feature_lists se !! key') /\
  GetFeatureList_const "images"
    (at_new_feature "images"
       (AppendFeatureValues_init (FloatingValue cpp_double)
          [five_double; three_double])
       (at_new_feature "images"
          (AppendFeatureValues_init (FloatingValue cpp_double) [four_double])
          (mkSequenceExample (mkFeatures ∅) ∅)))
  = Ok [mkFeature kFloatList [] [four_float] [];
        mkFeature kFloatList [] [five_float; three_float] []].
Proof.
  split; [apply lookup_at_new_features |].
  split; [| split; [apply lookup_at_new_feature_ne |]].
  - intros key op ops se.
    pose proof (lookup_at_new_features key (op :: ops) se) as Hl.
    assert (Hsome : is_Some
              (feature_lists (at_new_features key (op :: ops) se) !! key)).
    { apply (at_new_features_present key ops (at_new_feature key op se)).
      rewrite lookup_at_new_feature. eauto. }
    destruct Hsome as [l Hsome]. rewrite Hsome in Hl. simpl in Hl.
    split.
    + unfold GetFeatureList_const, Map.at_. rewrite Hsome, Hl. reflexivity.
    + unfold HasFeatureList, Map.contains.
      apply bool_decide_eq_true. rewrite Hsome. eauto.
  - unfold GetFeatureList_const, Map.at_.
    rewrite !lookup_at_new_feature. cbn [feature_lists].
    rewrite lookup_empty. vm_compute. reflexivity.
Qed.

Lemma GetFeatureList_call_order_witness :
  ("images" : string) <> "labels" /\
  feature_lists
    (at_new_feature "images"
       (AppendFeatureValues_init (FloatingValue cpp_double) [four_double])
       (mkSequenceExample (mkFeatures ∅) ∅)) !! "labels"%string = None.
Proof.
  split; [discriminate |].
  destruct GetFeatureList_call_order as (_ & _ & Hother & _).
  rewrite (Hother "images"%string "labels"%string); [reflexivity |].
  discriminate.
Defined.

(** ** Keyed round trip *)

Lemma SetFeatureValues_key_roundtrip {ProtoType : Type}
    `{TypeHasFeatures ProtoType} (V : ValueType) (has_size : bool)
    (vs : list (cvalue V)) (key : string) (proto : ProtoType) :
  GetFeatureValues_key_const (FeatureTrait_Type V) key
    (SetFeatureValues_key V has_size vs key proto)
  = Ok (map (convert V) vs).
Proof.
  unfold GetFeatureValues_key_const, Map.at_, SetFeatureValues_key.
  rewrite lookup_at_key, SetFeatureValues_container_range.
  rewrite GetFeatureValues_const_same
    by apply kind_case_SetFeatureValues_range.
  rewrite storage_SetFeatureValues_range. reflexivity.
Qed.

(** Setting 1, 2, 3 under the key tag of an empty Example and reading the
    int64 values of the key gives 1, 2, 3. *)
Example SetFeatureValues_tag :
  GetFeatureValues_key_const protobuf_int64 "tag"
    (SetFeatureValues_key (IntegralValue cpp_int) true [1; 2; 3] "tag"
       (mkExample (mkFeatures ∅)))
  = Ok [1; 2; 3].
Proof.
  apply (SetFeatureValues_key_roundtrip (IntegralValue cpp_int)).
Qed.

(** The mutable keyed view creates the entry and gives it the kind. *)
Lemma lookup_GetFeatureValues_key_mut {ProtoType : Type}
    `{TypeHasFeatures ProtoType} (FT : FeatureType) (key : string)
    (proto : ProtoType) :
  feature (GetFeatures (GetFeatureValues_key_mut FT key proto)) !! key =
  Some (GetFeatureValues_mut FT
          (default Feature_default (feature (GetFeatures proto) !! key))).
Proof.
  unfold GetFeatureValues_key_mut. rewrite GetFeatures_with_features.
  unfold on_feature; simpl.
  rewrite lookup_alter_eq, Map_index_lookup. reflexivity.
Qed.

(** * Further properties of the header *)

(** ** Resolution of the trait *)

Lemma FeatureTrait_None (T : CppType) :
  FeatureTrait T = None <->
  is_integral T = false /\ is_floating_point T = false /\ is_string T = false.
Proof.
  unfold FeatureTrait. split.
  - destruct (is_integral T) eqn:Hi.
    + rewrite (integral_not_floating T Hi), (integral_not_string T Hi).
      discriminate.
    + destruct (is_floating_point T) eqn:Hf.
      * rewrite (floating_not_string T Hf). discriminate.
      * destruct (is_string T); [discriminate | auto].
  - intros (-> & -> & ->). reflexivity.
Qed.

(** X1: no type passes two of the three guards of FeatureTrait, so the
    specialisation is never ambiguous; the trait is undefined exactly for
    the types that pass none; and it never resolves to tstring. *)
Theorem FeatureTrait_unambiguous (T : CppType) :
  is_integral T && is_floating_point T = false /\
  is_integral T && is_string T = false /\
  is_floating_point T && is_string T = false /\
  (FeatureTrait T = None <->
   is_integral T = false /\ is_floating_point T = false /\
   is_string T = false) /\
  FeatureTrait T <> Some tstring.
Proof.
  split; [| split; [| split; [| split]]].
  - destruct (is_integral T) eqn:Hi; [| reflexivity].
    apply (integral_not_floating T Hi).
  - destruct (is_integral T) eqn:Hi; [| reflexivity].
    apply (integral_not_string T Hi).
  - destruct (is_floating_point T) eqn:Hf; [| reflexivity].
    apply (floating_not_string T Hf).
  - apply FeatureTrait_None.
  - unfold FeatureTrait.
    destruct (is_integral T), (is_floating_point T), (is_string T);
      discriminate.
Qed.

Lemma FeatureTrait_unambiguous_witness :
  (is_integral (Pointer cpp_void) = false /\
   is_floating_point (Pointer cpp_void) = false /\
   is_string (Pointer cpp_void) = false) /\
  FeatureTrait (Pointer cpp_void) = None.
Proof.
  split; [repeat split |].
  apply (FeatureTrait_unambiguous (Pointer cpp_void)). repeat split.
Defined.

Lemma decay_c_string_is_string (T : CppType) :
  decay T = Pointer (Integral cpp_char) \/
  decay T = Pointer (Const (Integral cpp_char)) ->
  is_string T = true.
Proof.
  intros Hd.
  assert (Hs : is_same (Pointer (Integral cpp_char)) (decay T)
               || is_same (Pointer (Const (Integral cpp_char))) (decay T)
               = true).
  { unfold is_same. destruct Hd as [-> | ->].
    - rewrite bool_decide_eq_true_2 by reflexivity. reflexivity.
    - rewrite (bool_decide_eq_true_2 (Pointer (Const (Integral cpp_char)) = _))
        by reflexivity.
      apply orb_true_r. }
  destruct T; simpl in *; try exact Hs; reflexivity.
Qed.

(** X2: the trait sees through const on an arithmetic type, and through
    decay on a C string (a character array, a reference to one, a const
    pointer), but a string class is recognised only as the exact type: its
    const-qualified and reference types have no feature type. *)
Theorem FeatureTrait_qualified :
  (forall T, is_integral T = true \/ is_floating_point T = true ->
     FeatureTrait (Const T) = FeatureTrait T) /\
  (forall T, decay T = Pointer (Integral cpp_char) \/
             decay T = Pointer (Const (Integral cpp_char)) ->
     FeatureTrait T = Some std_string) /\
  (forall T, T = cpp_std_string \/ T = cpp_StringPiece \/ T = cpp_tstring ->
     FeatureTrait T = Some std_string /\
     FeatureTrait (Const T) = None /\
     FeatureTrait (Reference T) = None /\
     FeatureTrait (Pointer T) = None).
Proof.
  split; [| split].
  - intros T [Hi | Hf]; unfold FeatureTrait.
    + assert (Hc : is_integral (Const T) = true) by exact Hi.
      rewrite Hc, (integral_not_floating _ Hc), (integral_not_string _ Hc).
      rewrite Hi, (integral_not_floating _ Hi), (integral_not_string _ Hi).
      reflexivity.
    + assert (Hc : is_floating_point (Const T) = true) by exact Hf.
      rewrite Hc, (floating_not_string _ Hc), Hf, (floating_not_string _ Hf).
      destruct (is_integral T) eqn:Hi.
      * rewrite (integral_not_floating _ Hi) in Hf. discriminate.
      * assert (Hci : is_integral (Const T) = false) by exact Hi.
        rewrite Hci. reflexivity.
  - intros T Hd. pose proof (decay_c_string_is_string T Hd) as Hs.
    unfold FeatureTrait.
    destruct (is_integral T) eqn:Hi.
    + rewrite (integral_not_string _ Hi) in Hs. discriminate.
    + destruct (is_floating_point T) eqn:Hf.
      * rewrite (floating_not_string _ Hf) in Hs. discriminate.
      * rewrite Hs. reflexivity.
  - intros T [-> | [-> | ->]]; repeat split; reflexivity.
Qed.

Lemma FeatureTrait_qualified_witness :
  is_integral (Integral cpp_short) = true /\
  FeatureTrait (Const (Integral cpp_short)) = Some protobuf_int64 /\
  decay (Const (Pointer (Integral cpp_char))) = Pointer (Integral cpp_char) /\
  FeatureTrait (Const (Pointer (Integral cpp_char))) = Some std_string /\
  FeatureTrait (Const cpp_tstring) = None.
Proof.
  destruct FeatureTrait_qualified as (Hconst & Hdecay & Hclass).
  split; [reflexivity |].
  split; [rewrite Hconst; [reflexivity | left; reflexivity] |].
  split; [reflexivity |].
  split; [apply Hdecay; left; reflexivity |].
  apply (Hclass cpp_tstring). right; right; reflexivity.
Defined.

(** ** Copiers on a Feature *)

Lemma storage_GetFeatureValues_mut (FT : FeatureType) (f : Feature) :
  storage FT (GetFeatureValues_mut FT f) =
  if decide (kind_case f = kind_of FT) then storage FT f else [].
Proof.
  unfold GetFeatureValues_mut. destruct (decide _); [reflexivity |].
  destruct FT; reflexivity.
Qed.

Lemma AppendFeatureValues_range_app (V : ValueType) (a b : list (cvalue V))
    (f : Feature) :
  AppendFeatureValues_range V b (AppendFeatureValues_range V a f) =
  AppendFeatureValues_range V (a ++ b) f.
Proof.
  unfold AppendFeatureValues_range at 1.
  rewrite GetFeatureValues_mut_same
    by apply kind_case_AppendFeatureValues_range.
  unfold AppendFeatureValues_range. symmetry. apply copy_into_app.
Qed.

Lemma int64_values_GetFeatureValues_mut (FT : FeatureType) (f : Feature) :
  int64_values f -> int64_values (GetFeatureValues_mut FT f).
Proof.
  intros Hf. unfold GetFeatureValues_mut.
  destruct (decide _); [exact Hf | constructor].
Qed.

Lemma int64_values_ClearFeatureValues (FT : FeatureType) (f : Feature) :
  int64_values f -> int64_values (ClearFeatureValues FT f).
Proof.
  unfold int64_values, ClearFeatureValues, on_values, RepeatedField.Clear.
  intros Hf. destruct FT; simpl; try exact Hf. constructor.
Qed.

Lemma int64_values_copy_into (V : ValueType) (elts : list (cvalue V))
    (f : Feature) :
  int64_values f -> int64_values (copy_into V elts f).
Proof.
  unfold int64_values. intros Hf. rewrite copy_into_spec. unfold on_values.
  destruct V as [t | t | t]; simpl; try exact Hf.
  apply Forall_app. split; [exact Hf |].
  apply Forall_forall. intros z Hz.
  apply list_elem_of_In, in_map_iff in Hz. destruct Hz as (x & <- & _).
  apply wrap_int64_range.
Qed.

Lemma int64_values_AppendFeatureValues_range (V : ValueType)
    (range : list (cvalue V)) (f : Feature) :
  int64_values f -> int64_values (AppendFeatureValues_range V range f).
Proof.
  intros Hf. unfold AppendFeatureValues_range.
  apply int64_values_copy_into, int64_values_GetFeatureValues_mut, Hf.
Qed.

(** X3: the copiers keep every stored integer within 64 signed bits: if
    the integers of a Feature are in that range, they still are after any
    append or set, whatever the integral type and the values of the
    source; and the integer stored for a source value is congruent to it
    modulo 2^64, and is the value itself exactly when that is in range. *)
Theorem copiers_keep_int64_range (V : ValueType) (has_size : bool)
    (c : list (cvalue V)) (f : Feature) :
  (int64_values f ->
   int64_values (AppendFeatureValues V has_size c f) /\
   int64_values (AppendFeatureValues_init V c f) /\
   int64_values (AppendFeatureValues_range V c f) /\
   int64_values (SetFeatureValues V has_size c f) /\
   int64_values (SetFeatureValues_init V c f) /\
   int64_values (SetFeatureValues_range V c f)) /\
  (forall (t : IntegralType) (z : Z),
     int64_range (convert (IntegralValue t) z) /\
     (convert (IntegralValue t) z - z) mod 2 ^ 64 = 0 /\
     (convert (IntegralValue t) z = z <-> int64_range z)).
Proof.
  split.
  - intros Hf.
    rewrite AppendFeatureValues_container_range,
      AppendFeatureValues_init_range, SetFeatureValues_container_range,
      SetFeatureValues_init_range.
    pose proof (int64_values_AppendFeatureValues_range V c f Hf) as Ha.
    pose proof (int64_values_AppendFeatureValues_range V c
                  (ClearFeatureValues (FeatureTrait_Type V) f)
                  (int64_values_ClearFeatureValues _ f Hf)) as Hs.
    auto 10.
  - intros t z. simpl. split; [apply wrap_int64_range |]. split.
    + unfold wrap_int64.
      replace ((z + 2 ^ 63) mod 2 ^ 64 - 2 ^ 63 - z)
        with ((z + 2 ^ 63) mod 2 ^ 64 - (z + 2 ^ 63)) by lia.
      rewrite Zminus_mod, Zmod_mod, <- Zminus_mod, Z.sub_diag. reflexivity.
    + apply (representable_integral t z).
Qed.

Lemma copiers_keep_int64_range_witness :
  int64_values (mkFeature kInt64List [] [] [7]) /\
  int64_values
    (AppendFeatureValues (IntegralValue cpp_unsigned_long_long) true
       [2 ^ 64 - 1] (mkFeature kInt64List [] [] [7])).
Proof.
  assert (H7 : int64_values (mkFeature kInt64List [] [] [7])).
  { unfold int64_values; simpl.
    constructor; [unfold int64_range; lia | constructor]. }
  split; [exact H7 |].
  apply (copiers_keep_int64_range (IntegralValue cpp_unsigned_long_long)
           true [2 ^ 64 - 1] (mkFeature kInt64List [] [] [7])).
  exact H7.
Defined.

(** X4: an append keeps the values the Feature holds under the kind of the
    source, in order, and puts the converted elements of the source after
    them, one per element; on a Feature of another kind, or a new one, the
    result holds the converted elements only. *)
Theorem AppendFeatureValues_read_back (V : ValueType) (has_size : bool)
    (c : list (cvalue V)) (f : Feature) :
  (GetFeatureValues_const (FeatureTrait_Type V)
     (AppendFeatureValues V has_size c f) =
   Ok ((if decide (kind_case f = kind_of (FeatureTrait_Type V))
        then storage (FeatureTrait_Type V) f else [])
       ++ map (convert V) c) /\
   GetFeatureValues_const (FeatureTrait_Type V)
     (AppendFeatureValues_init V c f) =
   GetFeatureValues_const (FeatureTrait_Type V)
     (AppendFeatureValues V has_size c f) /\
   GetFeatureValues_const (FeatureTrait_Type V)
     (AppendFeatureValues_range V c f) =
   GetFeatureValues_const (FeatureTrait_Type V)
     (AppendFeatureValues V has_size c f)) /\
  length (storage (FeatureTrait_Type V) (AppendFeatureValues V has_size c f)) =
    ((if decide (kind_case f = kind_of (FeatureTrait_Type V))
      then length (storage (FeatureTrait_Type V) f) else 0) + length c)%nat /\
  kind_case (AppendFeatureValues V has_size c f) =
    kind_of (FeatureTrait_Type V).
Proof.
  rewrite AppendFeatureValues_container_range, AppendFeatureValues_init_range.
  split; [split; [| auto] | split].
  - rewrite GetFeatureValues_const_same
      by apply kind_case_AppendFeatureValues_range.
    rewrite storage_AppendFeatureValues_range, storage_GetFeatureValues_mut.
    reflexivity.
  - rewrite storage_AppendFeatureValues_range, storage_GetFeatureValues_mut.
    rewrite length_app, length_map. destruct (decide _); reflexivity.
  - apply kind_case_AppendFeatureValues_range.
Qed.

Lemma agrees_other_empty (f : Feature) :
  agrees f ->
  (kind_case f <> kBytesList -> bytes_list f = []) /\
  (kind_case f <> kFloatList -> float_list f = []) /\
  (kind_case f <> kInt64List -> int64_list f = []).
Proof.
  intros (Hb & Hf & Hi). repeat split; intros Hk.
  - destruct (bytes_list f); [reflexivity |]. destruct Hk. apply Hb. done.
  - destruct (float_list f); [reflexivity |]. destruct Hk. apply Hf. done.
  - destruct (int64_list f); [reflexivity |]. destruct Hk. apply Hi. done.
Qed.

(** On a Feature that satisfies the invariant, the clear and the mutable
    view of a feature type leave an empty Feature of its kind. *)
Lemma GetFeatureValues_mut_ClearFeatureValues (FT : FeatureType)
    (f : Feature) :
  oneof_invariant f ->
  GetFeatureValues_mut FT (ClearFeatureValues FT f) =
  mkFeature (kind_of FT) [] [] [].
Proof.
  intros [Hagree _].
  destruct (agrees_other_empty f Hagree) as (Hb & Hf & Hi).
  unfold GetFeatureValues_mut.
  destruct (decide _) as [Hk | Hk]; [| reflexivity].
  unfold ClearFeatureValues, on_values, RepeatedField.Clear in *.
  rewrite kind_case_set_storage in Hk.
  destruct FT; cbn in Hk |- *; rewrite Hk in *;
    rewrite ?Hb, ?Hf, ?Hi by discriminate; reflexivity.
Qed.

Lemma SetFeatureValues_range_fresh (V : ValueType) (c : list (cvalue V))
    (f : Feature) :
  oneof_invariant f ->
  SetFeatureValues_range V c f = SetFeatureValues_range V c Feature_default.
Proof.
  intros Hinv. unfold SetFeatureValues_range, AppendFeatureValues_range.
  rewrite !GetFeatureValues_mut_ClearFeatureValues;
    [reflexivity | apply oneof_invariant_empty | exact Hinv].
Qed.

Lemma storage_view_clear (FT : FeatureType) (f : Feature) :
  storage FT (GetFeatureValues_mut FT (ClearFeatureValues FT f)) = [].
Proof.
  rewrite storage_GetFeatureValues_mut.
  destruct (decide _); [| reflexivity].
  unfold ClearFeatureValues, on_values. apply storage_set_storage.
Qed.

(** A set leaves the view of the cleared Feature with the converted
    elements as its storage. *)
Lemma SetFeatureValues_range_spec (V : ValueType) (c : list (cvalue V))
    (f : Feature) :
  SetFeatureValues_range V c f =
  set_storage (FeatureTrait_Type V) (map (convert V) c)
    (GetFeatureValues_mut (FeatureTrait_Type V)
       (ClearFeatureValues (FeatureTrait_Type V) f)).
Proof.
  unfold SetFeatureValues_range, AppendFeatureValues_range.
  rewrite copy_into_spec. unfold on_values.
  rewrite storage_view_clear. reflexivity.
Qed.

Lemma SetFeatureValues_range_twice (V : ValueType) (c1 c2 : list (cvalue V))
    (f : Feature) :
  SetFeatureValues_range V c2 (SetFeatureValues_range V c1 f) =
  SetFeatureValues_range V c2 f.
Proof.
  rewrite (SetFeatureValues_range_spec V c2).
  rewrite (SetFeatureValues_range_spec V c2 f).
  rewrite (SetFeatureValues_range_spec V c1 f).
  set (g := GetFeatureValues_mut _ (ClearFeatureValues _ f)).
  assert (Hg : kind_case g = kind_of (FeatureTrait_Type V))
    by apply kind_case_GetFeatureValues_mut.
  unfold ClearFeatureValues, on_values, RepeatedField.Clear.
  rewrite set_storage_set_storage.
  rewrite GetFeatureValues_mut_same
    by (rewrite kind_case_set_storage; exact Hg).
  apply set_storage_set_storage.
Qed.

Lemma AppendFeatureValues_range_after_set (V : ValueType)
    (a b : list (cvalue V)) (f : Feature) :
  AppendFeatureValues_range V b (SetFeatureValues_range V a f) =
  SetFeatureValues_range V (a ++ b) f.
Proof. unfold SetFeatureValues_range. apply AppendFeatureValues_range_app. Qed.

(** X5: a set overwrites: a set after a set of the same value type is
    the second set alone; on a Feature that satisfies the oneof invariant a
    set forgets all it held, so it gives what it gives on a new Feature,
    and a set after a set of any value type is the second set alone. *)
Theorem SetFeatureValues_overwrites (V : ValueType) (has_size : bool)
    (c1 c2 : list (cvalue V)) (f : Feature) :
  (SetFeatureValues V has_size c2 (SetFeatureValues V has_size c1 f) =
     SetFeatureValues V has_size c2 f /\
   SetFeatureValues_init V c2 (SetFeatureValues_init V c1 f) =
     SetFeatureValues_init V c2 f /\
   SetFeatureValues_range V c2 (SetFeatureValues_range V c1 f) =
     SetFeatureValues_range V c2 f) /\
  (oneof_invariant f ->
   SetFeatureValues V has_size c2 f =
     SetFeatureValues V has_size c2 Feature_default /\
   forall (V' : ValueType) (has_size' : bool) (c' : list (cvalue V')),
     SetFeatureValues V has_size c2 (SetFeatureValues V' has_size' c' f) =
     SetFeatureValues V has_size c2 f).
Proof.
  rewrite !SetFeatureValues_container_range, !SetFeatureValues_init_range.
  pose proof (SetFeatureValues_range_twice V c1 c2 f) as Htwice.
  split; [auto |].
  intros Hinv. split; [apply SetFeatureValues_range_fresh, Hinv |].
  intros V' has_size' c'.
  rewrite !SetFeatureValues_container_range.
  rewrite (SetFeatureValues_range_fresh V c2 f Hinv).
  apply SetFeatureValues_range_fresh,
    oneof_invariant_SetFeatureValues_range, Hinv.
Qed.

Lemma SetFeatureValues_overwrites_witness :
  oneof_invariant (mkFeature kBytesList ["lorem ipsum"%string] [] []) /\
  SetFeatureValues (IntegralValue cpp_int) true [4]
    (SetFeatureValues (FloatingValue cpp_float) true [four_float]
       (mkFeature kBytesList ["lorem ipsum"%string] [] [])) =
  SetFeatureValues (IntegralValue cpp_int) true [4]
    (mkFeature kBytesList ["lorem ipsum"%string] [] []).
Proof.
  assert (Hinv : oneof_invariant
                   (mkFeature kBytesList ["lorem ipsum"%string] [] [])).
  { apply oneof_invariant_agrees. repeat split; simpl; done. }
  split; [exact Hinv |].
  destruct (SetFeatureValues_overwrites (IntegralValue cpp_int) true [4] [4]
              (mkFeature kBytesList ["lorem ipsum"%string] [] []))
    as [_ Hfresh].
  destruct (Hfresh Hinv) as [_ Hany].
  apply (Hany (FloatingValue cpp_float) true [four_float]).
Defined.

(** X6: an append after a set of the same value type is the set of the
    two sources one after the other, for each overload. *)
Theorem AppendFeatureValues_after_set (V : ValueType) (has_size : bool)
    (a b : list (cvalue V)) (f : Feature) :
  AppendFeatureValues V has_size b (SetFeatureValues V has_size a f) =
    SetFeatureValues V has_size (a ++ b) f /\
  AppendFeatureValues_init V b (SetFeatureValues_init V a f) =
    SetFeatureValues_init V (a ++ b) f /\
  AppendFeatureValues_range V b (SetFeatureValues_range V a f) =
    SetFeatureValues_range V (a ++ b) f.
Proof.
  rewrite !SetFeatureValues_container_range, !SetFeatureValues_init_range,
    !AppendFeatureValues_container_range, !AppendFeatureValues_init_range.
  pose proof (AppendFeatureValues_range_after_set V a b f). auto.
Qed.

(** ** Keyed writers *)

Lemma alter_index_insert {V} (d : V) (op : V -> V) (key : string)
    (m : gmap string V) :
  alter op key (Map.index d key m) = <[key := op (default d (m !! key))]> m.
Proof.
  apply map_eq. intros i. destruct (decide (key = i)) as [<- | Hne].
  - rewrite lookup_alter_eq, Map_index_lookup, lookup_insert_eq. reflexivity.
  - rewrite lookup_alter_ne, Map_index_lookup_ne, lookup_insert_ne; done.
Qed.

Section KeyedWriters.
Context {ProtoType : Type} `{TypeHasFeatures ProtoType}.

(** A copier at a key rewrites the entry of the key, created if missing,
    and nothing else. *)
Lemma feature_at_key (key : string) (op : Feature -> Feature)
    (proto : ProtoType) :
  feature (GetFeatures (at_key key op proto)) =
  <[key := op (default Feature_default (feature (GetFeatures proto) !! key))]>
    (feature (GetFeatures proto)).
Proof.
  unfold at_key. rewrite GetFeatures_with_features.
  unfold on_feature; simpl. apply alter_index_insert.
Qed.

Lemma feature_GetFeatureValues_key_mut (FT : FeatureType) (key : string)
    (proto : ProtoType) :
  feature (GetFeatures (GetFeatureValues_key_mut FT key proto)) =
  <[key := GetFeatureValues_mut FT
             (default Feature_default (feature (GetFeatures proto) !! key))]>
    (feature (GetFeatures proto)).
Proof.
  unfold GetFeatureValues_key_mut. rewrite GetFeatures_with_features.
  unfold on_feature; simpl. apply alter_index_insert.
Qed.

Lemma feature_at_key_commute (k1 k2 : string) (op1 op2 : Feature -> Feature)
    (proto : ProtoType) :
  k1 <> k2 ->
  feature (GetFeatures (at_key k1 op1 (at_key k2 op2 proto))) =
  feature (GetFeatures (at_key k2 op2 (at_key k1 op1 proto))).
Proof.
  intros Hne. rewrite !feature_at_key.
  rewrite lookup_insert_ne by (intros Heq; apply Hne; symmetry; exact Heq).
  rewrite lookup_insert_ne by exact Hne.
  apply insert_insert_ne. exact Hne.
Qed.

Lemma feature_at_key_compose (key : string) (op1 op2 : Feature -> Feature)
    (proto : ProtoType) :
  feature (GetFeatures (at_key key op2 (at_key key op1 proto))) =
  feature (GetFeatures (at_key key (fun f => op2 (op1 f)) proto)).
Proof.
  rewrite !feature_at_key, lookup_insert_eq; simpl.
  apply insert_insert_eq.
Qed.

Lemma feature_at_key_ext (key : string) (op1 op2 : Feature -> Feature)
    (proto : ProtoType) :
  (forall f, op1 f = op2 f) ->
  feature (GetFeatures (at_key key op1 proto)) =
  feature (GetFeatures (at_key key op2 proto)).
Proof. intros Hext. rewrite !feature_at_key, Hext. reflexivity. Qed.

End KeyedWriters.

(** X7: every keyed writer (the mutable keyed view, the three keyed
    appends and the three keyed sets) leaves the map of the proto with the
    entry of the key replaced by the result of the Feature-level operation
    on the Feature the key had, or on a new Feature where the key was
    missing, and with every other entry as it was. *)
Theorem keyed_writers_act_at_key :
  forall (ProtoType : Type) (HF : TypeHasFeatures ProtoType)
         (key : string) (proto : ProtoType),
  let m := feature (GetFeatures proto) in
  let old := default Feature_default (m !! key) in
  (forall FT,
     feature (GetFeatures (GetFeatureValues_key_mut FT key proto)) =
     <[key := GetFeatureValues_mut FT old]> m) /\
  (forall V has_size (c : list (cvalue V)),
     feature (GetFeatures (AppendFeatureValues_key V has_size c key proto)) =
       <[key := AppendFeatureValues V has_size c old]> m /\
     feature (GetFeatures (AppendFeatureValues_init_key V c key proto)) =
       <[key := AppendFeatureValues_init V c old]> m /\
     feature (GetFeatures (AppendFeatureValues_range_key V c key proto)) =
       <[key := AppendFeatureValues_range V c old]> m /\
     feature (GetFeatures (SetFeatureValues_key V has_size c key proto)) =
       <[key := SetFeatureValues V has_size c old]> m /\
     feature (GetFeatures (SetFeatureValues_init_key V c key proto)) =
       <[key := SetFeatureValues_init V c old]> m /\
     feature (GetFeatures (SetFeatureValues_range_key V c key proto)) =
       <[key := SetFeatureValues_range V c old]> m).
Proof.
  intros ProtoType HF key proto m old. split.
  - intros FT. apply feature_GetFeatureValues_key_mut.
  - intros V has_size c.
    repeat split; apply feature_at_key.
Qed.

(** X8: keyed writes under two different keys commute: the map of the
    proto is the same in either order, for any two keyed copiers; on a
    Features and on an Example the whole proto is. *)
Theorem keyed_writers_commute :
  forall (ProtoType : Type) (HF : TypeHasFeatures ProtoType)
         (k1 k2 : string) (proto : ProtoType),
  k1 <> k2 ->
  (forall V1 hs1 (c1 : list (cvalue V1)) V2 hs2 (c2 : list (cvalue V2)),
     feature (GetFeatures (AppendFeatureValues_key V1 hs1 c1 k1
                             (AppendFeatureValues_key V2 hs2 c2 k2 proto))) =
     feature (GetFeatures (AppendFeatureValues_key V2 hs2 c2 k2
                             (AppendFeatureValues_key V1 hs1 c1 k1 proto))) /\
     feature (GetFeatures (SetFeatureValues_key V1 hs1 c1 k1
                             (AppendFeatureValues_key V2 hs2 c2 k2 proto))) =
     feature (GetFeatures (AppendFeatureValues_key V2 hs2 c2 k2
                             (SetFeatureValues_key V1 hs1 c1 k1 proto))) /\
     feature (GetFeatures (SetFeatureValues_key V1 hs1 c1 k1
                             (SetFeatureValues_key V2 hs2 c2 k2 proto))) =
     feature (GetFeatures (SetFeatureValues_key V2 hs2 c2 k2
                             (SetFeatureValues_key V1 hs1 c1 k1 proto)))) /\
  (forall (op1 op2 : Feature -> Feature),
     (forall fs : Features,
        at_key k1 op1 (at_key k2 op2 fs) = at_key k2 op2 (at_key k1 op1 fs)) /\
     (forall example : Example,
        at_key k1 op1 (at_key k2 op2 example) =
        at_key k2 op2 (at_key k1 op1 example))).
Proof.
  intros ProtoType HF k1 k2 proto Hne. split.
  - intros V1 hs1 c1 V2 hs2 c2.
    unfold AppendFeatureValues_key, SetFeatureValues_key.
    repeat split; apply feature_at_key_commute, Hne.
  - intros op1 op2. split.
    + intros fs.
      pose proof (feature_at_key_commute k1 k2 op1 op2 fs Hne) as Hm.
      unfold at_key in *; simpl in *. unfold on_feature in *; simpl in *.
      rewrite Hm. reflexivity.
    + intros example.
      pose proof (feature_at_key_commute k1 k2 op1 op2 example Hne) as Hm.
      unfold at_key in *; simpl in *. unfold on_feature in *; simpl in *.
      rewrite Hm. reflexivity.
Qed.

Lemma keyed_writers_commute_witness :
  ("tag" : string) <> "image" /\
  AppendFeatureValues_key (IntegralValue cpp_int) true [1; 2; 3] "tag"
    (SetFeatureValues_key (StringValue string_view) true
       ["lorem ipsum"%string] "image" (mkExample (mkFeatures ∅))) =
  SetFeatureValues_key (StringValue string_view) true
    ["lorem ipsum"%string] "image"
    (AppendFeatureValues_key (IntegralValue cpp_int) true [1; 2; 3] "tag"
       (mkExample (mkFeatures ∅))).
Proof.
  split; [discriminate |].
  destruct (keyed_writers_commute Example _ "tag"%string "image"%string
              (mkExample (mkFeatures ∅))) as [_ Hall]; [discriminate |].
  apply (Hall (AppendFeatureValues (IntegralValue cpp_int) true [1; 2; 3])
              (SetFeatureValues (StringValue string_view) true
                 ["lorem ipsum"%string])).
Defined.

(** X9: keyed writes under one key compose as on a Feature: two keyed
    appends of the same value type leave the map a single keyed append of
    the two sources one after the other leaves, a keyed append after a
    keyed set leaves the map of the keyed set of both, and a keyed set
    after a keyed set leaves the map of the second set alone. *)
Theorem keyed_writers_compose :
  forall (ProtoType : Type) (HF : TypeHasFeatures ProtoType)
         (key : string) (proto : ProtoType)
         (V : ValueType) (has_size : bool) (a b : list (cvalue V)),
  feature (GetFeatures (AppendFeatureValues_key V has_size b key
                          (AppendFeatureValues_key V has_size a key proto))) =
  feature (GetFeatures (AppendFeatureValues_key V has_size (a ++ b) key
                          proto)) /\
  feature (GetFeatures (AppendFeatureValues_init_key V b key
                          (AppendFeatureValues_init_key V a key proto))) =
  feature (GetFeatures (AppendFeatureValues_init_key V (a ++ b) key proto)) /\
  feature (GetFeatures (AppendFeatureValues_range_key V b key
                          (AppendFeatureValues_range_key V a key proto))) =
  feature (GetFeatures (AppendFeatureValues_range_key V (a ++ b) key proto)) /\
  feature (GetFeatures (AppendFeatureValues_key V has_size b key
                          (SetFeatureValues_key V has_size a key proto))) =
  feature (GetFeatures (SetFeatureValues_key V has_size (a ++ b) key proto)) /\
  feature (GetFeatures (SetFeatureValues_key V has_size b key
                          (SetFeatureValues_key V has_size a key proto))) =
  feature (GetFeatures (SetFeatureValues_key V has_size b key proto)).
Proof.
  intros ProtoType HF key proto V has_size a b.
  unfold AppendFeatureValues_key, AppendFeatureValues_init_key,
    AppendFeatureValues_range_key, SetFeatureValues_key.
  rewrite !feature_at_key_compose.
  split; [| split; [| split; [| split]]]; apply feature_at_key_ext; intros f.
  - rewrite !AppendFeatureValues_container_range.
    apply AppendFeatureValues_range_app.
  - rewrite !AppendFeatureValues_init_range.
    apply AppendFeatureValues_range_app.
  - apply AppendFeatureValues_range_app.
  - rewrite AppendFeatureValues_container_range,
      !SetFeatureValues_container_range.
    apply AppendFeatureValues_range_after_set.
  - rewrite !SetFeatureValues_container_range.
    apply SetFeatureValues_range_twice.
Qed.

(** ** Keyed reads *)

Section KeyedReads.
Context {ProtoType : Type} `{TypeHasFeatures ProtoType}.

Lemma GetFeatureValues_key_const_lookup (FT : FeatureType) (key : string)
    (proto : ProtoType) :
  GetFeatureValues_key_const FT key proto =
  match feature (GetFeatures proto) !! key with
  | Some f => GetFeatureValues_const FT f
  | None => Error LookupError
  end.
Proof.
  unfold GetFeatureValues_key_const, Map.at_.
  destruct (feature (GetFeatures proto) !! key); reflexivity.
Qed.

Lemma GetFeatureValues_key_const_at_key_ne (FT : FeatureType)
    (key key' : string) (op : Feature -> Feature) (proto : ProtoType) :
  key <> key' ->
  GetFeatureValues_key_const FT key' (at_key key op proto) =
  GetFeatureValues_key_const FT key' proto.
Proof.
  intros Hne. rewrite !GetFeatureValues_key_const_lookup.
  rewrite lookup_at_key_ne by exact Hne. reflexivity.
Qed.

End KeyedReads.

(** X10: the keyed round trip: after any of the keyed sets under a key,
    whether the key was present or not, the const keyed read of the
    resolved feature type under that key yields the converted elements of
    the source, in order; and the const keyed reads under the other keys
    give what they gave before, for every feature type. *)
Theorem SetFeatureValues_key_read_back :
  forall (ProtoType : Type) (HF : TypeHasFeatures ProtoType)
         (V : ValueType) (has_size : bool) (c : list (cvalue V))
         (key : string) (proto : ProtoType),
  (GetFeatureValues_key_const (FeatureTrait_Type V) key
     (SetFeatureValues_key V has_size c key proto) = Ok (map (convert V) c) /\
   GetFeatureValues_key_const (FeatureTrait_Type V) key
     (SetFeatureValues_init_key V c key proto) = Ok (map (convert V) c) /\
   GetFeatureValues_key_const (FeatureTrait_Type V) key
     (SetFeatureValues_range_key V c key proto) = Ok (map (convert V) c)) /\
  (forall (key' : string) (FT : FeatureType),
     key <> key' ->
     GetFeatureValues_key_const FT key'
       (SetFeatureValues_key V has_size c key proto) =
     GetFeatureValues_key_const FT key' proto /\
     GetFeatureValues_key_const FT key'
       (SetFeatureValues_init_key V c key proto) =
     GetFeatureValues_key_const FT key' proto /\
     GetFeatureValues_key_const FT key'
       (SetFeatureValues_range_key V c key proto) =
     GetFeatureValues_key_const FT key' proto /\
     GetFeatureValues_key_const FT key'
       (AppendFeatureValues_key V has_size c key proto) =
     GetFeatureValues_key_const FT key' proto).
Proof.
  intros ProtoType HF V has_size c key proto. split.
  - unfold SetFeatureValues_key, SetFeatureValues_init_key,
      SetFeatureValues_range_key.
    rewrite !GetFeatureValues_key_const_lookup, !lookup_at_key.
    rewrite SetFeatureValues_container_range, SetFeatureValues_init_range.
    rewrite GetFeatureValues_const_same
      by apply kind_case_SetFeatureValues_range.
    rewrite storage_SetFeatureValues_range. auto.
  - intros key' FT Hne.
    unfold SetFeatureValues_key, SetFeatureValues_init_key,
      SetFeatureValues_range_key, AppendFeatureValues_key.
    rewrite !GetFeatureValues_key_const_at_key_ne by exact Hne. auto.
Qed.

Lemma SetFeatureValues_key_read_back_witness :
  ("tag" : string) <> "image" /\
  GetFeatureValues_key_const std_string "image"
    (SetFeatureValues_key (IntegralValue cpp_int) true [1; 2; 3] "tag"
       (mkExample (mkFeatures ∅)))
  = Error LookupError.
Proof.
  split; [discriminate |].
  destruct (SetFeatureValues_key_read_back Example _ (IntegralValue cpp_int)
              true [1; 2; 3] "tag"%string (mkExample (mkFeatures ∅)))
    as [_ Hother].
  destruct (Hother "image"%string std_string) as [Hset _]; [discriminate |].
  rewrite Hset. reflexivity.
Defined.

(** X11: the keyed read and the keyed mutable view differ on a missing
    key: the const keyed read fails with a LookupError, for every feature
    type, and leaves the key missing, while after the mutable keyed view
    the const keyed read of the same feature type succeeds, with the
    values the key held under that kind, and with none where the key was
    missing or held another kind. *)
Theorem GetFeatureValues_key_asymmetry :
  forall (ProtoType : Type) (HF : TypeHasFeatures ProtoType)
         (FT : FeatureType) (key : string) (proto : ProtoType),
  (feature (GetFeatures proto) !! key = None ->
   GetFeatureValues_key_const FT key proto = Error LookupError /\
   GetFeatureValues_key_const FT key (GetFeatureValues_key_mut FT key proto)
     = Ok []) /\
  (forall f, feature (GetFeatures proto) !! key = Some f ->
     GetFeatureValues_key_const FT key proto = GetFeatureValues_const FT f /\
     GetFeatureValues_key_const FT key (GetFeatureValues_key_mut FT key proto)
       = Ok (if decide (kind_case f = kind_of FT) then storage FT f else [])).
Proof.
  intros ProtoType HF FT key proto.
  assert (Hmut : GetFeatureValues_key_const FT key
                   (GetFeatureValues_key_mut FT key proto) =
                 Ok (storage FT (GetFeatureValues_mut FT
                       (default Feature_default
                          (feature (GetFeatures proto) !! key))))).
  { rewrite GetFeatureValues_key_const_lookup,
      lookup_GetFeatureValues_key_mut.
    apply GetFeatureValues_const_same, kind_case_GetFeatureValues_mut. }
  split.
  - intros Habsent. split.
    + rewrite GetFeatureValues_key_const_lookup, Habsent. reflexivity.
    + rewrite Hmut, Habsent, storage_GetFeatureValues_mut; simpl.
      destruct (decide _); [destruct FT |]; reflexivity.
  - intros f Hf. split.
    + rewrite GetFeatureValues_key_const_lookup, Hf. reflexivity.
    + rewrite Hmut, Hf, storage_GetFeatureValues_mut. reflexivity.
Qed.

Lemma GetFeatureValues_key_asymmetry_witness :
  feature (GetFeatures (mkFeatures ∅)) !! "tag"%string = None /\
  GetFeatureValues_key_const float "tag" (mkFeatures ∅) = Error LookupError /\
  GetFeatureValues_key_const float "tag"
    (GetFeatureValues_key_mut float "tag" (mkFeatures ∅)) = Ok [].
Proof.
  split; [reflexivity |].
  apply (GetFeatureValues_key_asymmetry Features _ float "tag"%string
           (mkFeatures ∅)).
  reflexivity.
Defined.

(** X12: after a keyed append or set of a source under a key, the untyped
    HasFeature of the key holds, and the typed HasFeature holds exactly
    for the feature types of the kind resolved from the source, also when
    the source is empty; on an Example as on a Features. *)
Theorem HasFeature_after_keyed_write :
  forall (ProtoType : Type) (HF : TypeHasFeatures ProtoType)
         (V : ValueType) (has_size : bool) (c : list (cvalue V))
         (key : string) (proto : ProtoType) (FT : FeatureType),
  HasFeature None key
    (GetFeatures (AppendFeatureValues_key V has_size c key proto)) = true /\
  HasFeature (Some FT) key
    (GetFeatures (AppendFeatureValues_key V has_size c key proto)) =
    bool_decide (kind_of (FeatureTrait_Type V) = kind_of FT) /\
  HasFeature (Some FT) key
    (GetFeatures (SetFeatureValues_key V has_size c key proto)) =
    bool_decide (kind_of (FeatureTrait_Type V) = kind_of FT) /\
  (forall example : Example,
     HasFeature_Example (Some FT) key
       (SetFeatureValues_key V has_size c key example) =
     bool_decide (kind_of (FeatureTrait_Type V) = kind_of FT) /\
     ExampleHasFeature (Some FT) key
       (AppendFeatureValues_key V has_size c key example) =
     bool_decide (kind_of (FeatureTrait_Type V) = kind_of FT)).
Proof.
  intros ProtoType HF V has_size c key proto FT.
  assert (Hwrite : forall (P : Type) (HP : TypeHasFeatures P) (p : P)
            (range : list (cvalue V)) (op : Feature -> Feature),
            (forall f, kind_case (op f) = kind_of (FeatureTrait_Type V)) ->
            HasFeature (Some FT) key (GetFeatures (at_key key op p)) =
            bool_decide (kind_of (FeatureTrait_Type V) = kind_of FT)).
  { intros P HP p range op Hop. unfold HasFeature.
    rewrite lookup_at_key, Hop. reflexivity. }
  assert (Happend : forall f,
            kind_case (AppendFeatureValues V has_size c f) =
            kind_of (FeatureTrait_Type V)).
  { intros f. rewrite AppendFeatureValues_container_range.
    apply kind_case_AppendFeatureValues_range. }
  assert (Hset : forall f,
            kind_case (SetFeatureValues V has_size c f) =
            kind_of (FeatureTrait_Type V)).
  { intros f. rewrite SetFeatureValues_container_range.
    apply kind_case_SetFeatureValues_range. }
  split; [| split; [| split]].
  - apply HasFeature_membership.
    unfold AppendFeatureValues_key. rewrite lookup_at_key. eauto.
  - apply (Hwrite ProtoType HF proto c _ Happend).
  - apply (Hwrite ProtoType HF proto c _ Hset).
  - intros example. split.
    + apply (Hwrite Example _ example c _ Hset).
    + apply (Hwrite Example _ example c _ Happend).
Qed.

(** ** Set and append *)

Lemma SetFeatureValues_range_is_append (V : ValueType) (c : list (cvalue V))
    (f : Feature) :
  kind_case f <> kind_of (FeatureTrait_Type V) \/
  storage (FeatureTrait_Type V) f = [] ->
  SetFeatureValues_range V c f = AppendFeatureValues_range V c f.
Proof.
  intros Hf. unfold SetFeatureValues_range, AppendFeatureValues_range.
  f_equal. destruct Hf as [Hk | Hempty].
  - rewrite (GetFeatureValues_mut_switch _ f) by exact Hk.
    apply GetFeatureValues_mut_switch.
    unfold ClearFeatureValues, on_values.
    rewrite kind_case_set_storage. exact Hk.
  - f_equal. unfold ClearFeatureValues, on_values, RepeatedField.Clear.
    rewrite <- Hempty. apply set_storage_storage.
Qed.

(** X13: on a Feature that holds no values of the kind of the source (it
    holds another kind, or no kind, or an empty list) a set is an append;
    so under a key that is missing the keyed set and the keyed append
    leave the same map. *)
Theorem SetFeatureValues_is_append (V : ValueType) (has_size : bool)
    (c : list (cvalue V)) :
  (forall f,
     kind_case f <> kind_of (FeatureTrait_Type V) \/
     storage (FeatureTrait_Type V) f = [] ->
     SetFeatureValues V has_size c f = AppendFeatureValues V has_size c f /\
     SetFeatureValues_init V c f = AppendFeatureValues_init V c f /\
     SetFeatureValues_range V c f = AppendFeatureValues_range V c f) /\
  (forall (ProtoType : Type) (HF : TypeHasFeatures ProtoType)
          (key : string) (proto : ProtoType),
     feature (GetFeatures proto) !! key = None ->
     feature (GetFeatures (SetFeatureValues_key V has_size c key proto)) =
     feature (GetFeatures (AppendFeatureValues_key V has_size c key proto))).
Proof.
  split.
  - intros f Hf.
    rewrite SetFeatureValues_container_range, SetFeatureValues_init_range,
      AppendFeatureValues_container_range, AppendFeatureValues_init_range.
    pose proof (SetFeatureValues_range_is_append V c f Hf). auto.
  - intros ProtoType HF key proto Habsent.
    unfold SetFeatureValues_key, AppendFeatureValues_key.
    rewrite !feature_at_key, Habsent; simpl.
    rewrite SetFeatureValues_container_range,
      AppendFeatureValues_container_range.
    rewrite SetFeatureValues_range_is_append; [reflexivity |].
    left. apply kind_of_set.
Qed.

Lemma SetFeatureValues_is_append_witness :
  (kind_case (mkFeature kFloatList [] [four_float] []) <>
     kind_of (FeatureTrait_Type (StringValue const_c_string)) \/
   storage (FeatureTrait_Type (StringValue const_c_string))
     (mkFeature kFloatList [] [four_float] []) = []) /\
  SetFeatureValues (StringValue const_c_string) false ["lorem"%string]
    (mkFeature kFloatList [] [four_float] []) =
  AppendFeatureValues (StringValue const_c_string) false ["lorem"%string]
    (mkFeature kFloatList [] [four_float] []).
Proof.
  split; [left; discriminate |].
  destruct (SetFeatureValues_is_append (StringValue const_c_string) false
              ["lorem"%string]) as [Hfeature _].
  apply (Hfeature (mkFeature kFloatList [] [four_float] [])).
  left. discriminate.
Defined.

(** X14: the discriminant a copier leaves is the storage kind the trait
    resolver gives for the C++ type of the elements of the source, for
    every append and set and every source, empty or not. *)
Theorem copiers_set_resolved_kind (V : ValueType) (has_size : bool)
    (c : list (cvalue V)) (f : Feature) :
  storage_kind (cpp_type V) =
    Some (kind_case (AppendFeatureValues V has_size c f)) /\
  storage_kind (cpp_type V) =
    Some (kind_case (AppendFeatureValues_init V c f)) /\
  storage_kind (cpp_type V) =
    Some (kind_case (AppendFeatureValues_range V c f)) /\
  storage_kind (cpp_type V) =
    Some (kind_case (SetFeatureValues V has_size c f)) /\
  storage_kind (cpp_type V) =
    Some (kind_case (SetFeatureValues_init V c f)) /\
  storage_kind (cpp_type V) =
    Some (kind_case (SetFeatureValues_range V c f)).
Proof.
  rewrite AppendFeatureValues_container_range, AppendFeatureValues_init_range,
    SetFeatureValues_container_range, SetFeatureValues_init_range.
  rewrite kind_case_AppendFeatureValues_range,
    kind_case_SetFeatureValues_range.
  unfold storage_kind. rewrite FeatureTrait_Type_resolved. simpl. auto 10.
Qed.
